(** * Scene extraction and classification: a shallow embedding

    This development embeds the three pieces of
    [video_processing_refactored.py] that carry its logic:

    - [extract_frames]: the decoder loop that collects the frames of each
      scene interval;
    - [classify_and_categorize_scenes]: the per-scene scoring loop, the
      averaging of the per-phrase scores, the action/context split and the
      choice of the best description;
    - [convert_timestamp_to_seconds]: the timestamp parser of the renderer.

    Conventions of the embedding.

    - Python floats are modelled by exact rationals [Q]; IEEE rounding is not
      modelled.  Equality of scores is [Qeq] (written [==]).
    - A Python exception that escapes a function is a [Raise] outcome; an
      exception swallowed by a [try/except] is an [option] inside the loop
      body.
    - The CLIP model, the OpenCV decoder and the time-code objects are
      external: they are section variables, and the assumptions made on them
      are the hypotheses of the theorems that need them.
    - Python dictionaries keyed by the scene index are [gmap nat _]. *)

From Stdlib Require Import QArith Qround Qpower Lqa Qminmax Ascii.
From stdpp Require Import gmap strings list fin_maps pretty.

(** ** Python values and exceptions *)

Module Py.

Inductive exn := ZeroDivisionError | IndexError | ValueError.

Inductive outcome (A : Type) :=
  | Ok (a : A)
  | Raise (e : exn).
Arguments Ok {A} a.
Arguments Raise {A} e.

#[global] Instance outcome_ret : MRet outcome := λ A a, Ok a.
#[global] Instance outcome_bind : MBind outcome := λ A B k m,
  match m with
  | Ok a => k a
  | Raise e => Raise e
  end.

#[global] Instance outcome_fmap : FMap outcome := λ A B f m,
  match m with
  | Ok a => Ok (f a)
  | Raise e => Raise e
  end.

(** [l[i]] for a non-negative index. *)
Definition getitem {A} (l : list A) (i : nat) : outcome A :=
  match l !! i with
  | Some x => Ok x
  | None => Raise IndexError
  end.

(** [x / n] with [n] an [int]: true division. *)
Definition truediv (x : Q) (n : nat) : outcome Q :=
  match n with
  | O => Raise ZeroDivisionError
  | S _ => Ok (x / inject_Z (Z.of_nat n))%Q
  end.

(** [sum(xs)]: left to right, starting from [0]. *)
Definition sum (xs : list Q) : Q := foldl Qplus 0%Q xs.

(** [sum(l[i] for i in idxs)]: the generator looks an entry up only when the
    running sum asks for it, so the first bad index raises. *)
Fixpoint sum_at (acc : Q) (l : list Q) (idxs : list nat) : outcome Q :=
  match idxs with
  | [] => Ok acc
  | i :: idxs => x ← getitem l i; sum_at (acc + x)%Q l idxs
  end.

(** [a > b] on numbers. *)
Definition gt (a b : Q) : bool := negb (Qle_bool a b).

(** [max(l)]: the running maximum is replaced only by a strictly greater
    item; an empty list raises [ValueError]. *)
Definition max (l : list Q) : outcome Q :=
  match l with
  | [] => Raise ValueError
  | x :: xs => Ok (foldl (λ m y, if gt y m then y else m) x xs)
  end.

(** [l.index(x)]: position of the first item equal to [x]. *)
Fixpoint index (x : Q) (l : list Q) : outcome nat :=
  match l with
  | [] => Raise ValueError
  | y :: ys => if Qeq_bool y x then Ok O else S <$> index x ys
  end.

End Py.

(** ** The two dictionaries that flow between the stages *)

(** The value stored by [extract_frames] under a scene index:
    [{'start_time', 'end_time', 'frames', 'first_frame'}].  [first_frame] is
    [None] or a decoded image. *)
Module SceneFrames.
Record t (Frame Timecode : Type) := Make {
  start_time : Timecode;
  end_time : Timecode;
  frames : list Frame;
  first_frame : option Frame
}.
Arguments Make {Frame Timecode}.
Arguments start_time {Frame Timecode}.
Arguments end_time {Frame Timecode}.
Arguments frames {Frame Timecode}.
Arguments first_frame {Frame Timecode}.
End SceneFrames.

(** The value stored by [classify_and_categorize_scenes] under a scene
    index. *)
Module SceneCategory.
Record t (Frame : Type) := Make {
  category : string;
  confidence : Q;
  start_time : string;
  end_time : string;
  duration : Q;
  first_frame : Frame;
  best_description : string
}.
Arguments Make {Frame}.
Arguments category {Frame}.
Arguments confidence {Frame}.
Arguments start_time {Frame}.
Arguments end_time {Frame}.
Arguments duration {Frame}.
Arguments first_frame {Frame}.
Arguments best_description {Frame}.
End SceneCategory.

(** ** [extract_frames] *)

Section Extraction.

Context {Frame Timecode Cap : Type}.

(** [FrameTimecode.get_frames()]. *)
Variable get_frames : Timecode → nat.

(** The [cv2.VideoCapture] handle: [cap.set(CAP_PROP_POS_FRAMES, n)],
    [cap.get(CAP_PROP_POS_FRAMES)] and [cap.read()], whose [ret] flag and
    frame are paired into an [option]. *)
Variable cap_set_pos : nat → Cap → Cap.
Variable cap_get_pos : Cap → nat.
Variable cap_read : Cap → option Frame * Cap.

(** The [while] loop of lines 59-64.  The loop has no bound of its own, so
    the embedding counts iterations with [fuel]; [None] is a run that is
    still looping when the fuel is spent. *)
Fixpoint read_scene (fuel : nat) (end_frame : nat) (cap : Cap)
    (frames : list Frame) (first_frame : option Frame)
    : option (Cap * list Frame * option Frame) :=
  if (cap_get_pos cap <? end_frame)%nat then
    match fuel with
    | O => None
    | S fuel =>
        let '(ret, cap) := cap_read cap in
        match ret with
        | Some frame =>
            let first_frame :=
              match first_frame with
              | None => Some frame
              | Some _ => first_frame
              end in
            read_scene fuel end_frame cap (frames ++ [frame]) first_frame
        | None => read_scene fuel end_frame cap frames first_frame
        end
    end
  else Some (cap, frames, first_frame).

(** The [for i, (start_time, end_time) in enumerate(scene_list)] loop. *)
Fixpoint extract_scenes (fuel : nat) (i : nat)
    (scene_list : list (Timecode * Timecode)) (cap : Cap)
    (scene_frames : gmap nat (SceneFrames.t Frame Timecode))
    : option (gmap nat (SceneFrames.t Frame Timecode)) :=
  match scene_list with
  | [] => Some scene_frames
  | (start_time, end_time) :: scene_list =>
      let cap := cap_set_pos (get_frames start_time) cap in
      '(cap, frames, first_frame) ←
        read_scene fuel (get_frames end_time) cap [] None;
      extract_scenes fuel (S i) scene_list cap
        (<[i := SceneFrames.Make start_time end_time frames first_frame]>
           scene_frames)
  end.

(** [extract_frames], given the freshly opened decoder [cap]. *)
Definition extract_frames (fuel : nat) (cap : Cap)
    (scene_list : list (Timecode * Timecode))
    : option (gmap nat (SceneFrames.t Frame Timecode)) :=
  extract_scenes fuel 0 scene_list cap ∅.

(** The results of [n] successive calls of [cap.read()]. *)
Fixpoint read_results (n : nat) (cap : Cap) : list (option Frame) :=
  match n with
  | O => []
  | S n => let '(ret, cap) := cap_read cap in ret :: read_results n cap
  end.

End Extraction.

(** ** [classify_and_categorize_scenes] *)

Section Classifier.

Context {Frame Timecode : Type}.

(** [FrameTimecode.get_seconds()] and [str(FrameTimecode)]. *)
Variable get_seconds : Timecode → Q.
Variable timecode_str : Timecode → string.

(** Lines 91-97: the CLIP logits of one frame against the phrases, as the
    one-dimensional tensor that [softmax(dim=0)] and [tolist()] are applied
    to.  [None] stands for an exception raised anywhere in the [try] body
    (a frame that cannot be converted, a model failure, or a result that
    [zip] cannot iterate over); the [except] clause catches all of them. *)
Variable frame_logits : list string → Frame → option (list Q).

(** The exponential used by [softmax]. *)
Variable exp : Q → Q.

(** [logits.softmax(dim=0)]: [exp(x_i) / sum_j exp(x_j)]. *)
Definition softmax (logits : list Q) : list Q :=
  let z := Py.sum (exp <$> logits) in
  (λ x, exp x / z)%Q <$> logits.

(** The [try] body up to [probs.tolist()]. *)
Definition frame_probs (description_texts : list string) (frame : Frame)
    : option (list Q) :=
  softmax <$> frame_logits description_texts frame.

(** One iteration of [for frame in frames]: lines 90-103, on the pair
    [(scene_scores, valid_frames)]. *)
Definition score_frame (description_texts : list string)
    (st : list Q * nat) (frame : Frame) : list Q * nat :=
  match frame_probs description_texts frame with
  | Some probs => (zip_with Qplus st.1 probs, S st.2)
  | None => st
  end.

(** Lines 86-103: the running scores and the count of scored frames. *)
Definition score_frames (description_texts : list string)
    (frames : list Frame) : list Q * nat :=
  foldl (score_frame description_texts)
    (replicate (length description_texts) 0%Q, O) frames.

(** Line 106. *)
Definition mean_scores (scene_scores : list Q) (valid_frames : nat) : list Q :=
  (λ score, score / inject_Z (Z.of_nat valid_frames))%Q <$> scene_scores.

(** The scores of a scene after line 106. *)
Definition scene_mean_scores (description_texts : list string)
    (scene_data : SceneFrames.t Frame Timecode) : list Q :=
  mean_scores
    (score_frames description_texts (SceneFrames.frames scene_data)).1
    (score_frames description_texts (SceneFrames.frames scene_data)).2.

(** Lines 74-75. *)
Definition action_indices : list nat := [0; 1; 2; 3; 4; 5; 6; 7; 8; 9]%nat.

Definition context_indices (description_texts : list string) : list nat :=
  elements
    ((set_seq 0 (length description_texts) : gset nat)
       ∖ list_to_set action_indices).

(** Lines 107-108. *)
Definition action_confidence (scene_scores : list Q) : Py.outcome Q :=
  s ← Py.sum_at 0 scene_scores action_indices;
  Py.truediv s (length action_indices).

Definition context_confidence (description_texts : list string)
    (scene_scores : list Q) : Py.outcome Q :=
  let context_indices := context_indices description_texts in
  s ← Py.sum_at 0 scene_scores context_indices;
  Py.truediv s (length context_indices).

(** Line 110. *)
Definition best_description_index (scene_scores : list Q) : Py.outcome nat :=
  m ← Py.max scene_scores; Py.index m scene_scores.

(** Lines 113-118. *)
Definition categorize (action_confidence context_confidence : Q)
    : string * Q :=
  if Py.gt action_confidence context_confidence
  then ("Action Scene", action_confidence)
  else ("Context Scene", context_confidence).

(** The body of [for scene_id, scene_data in scene_frames.items()]:
    [Ok None] when the scene is skipped, [Ok (Some record)] when a record is
    stored, [Raise] when an exception leaves the function. *)
Definition classify_scene (description_texts : list string)
    (scene_data : SceneFrames.t Frame Timecode)
    : Py.outcome (option (SceneCategory.t Frame)) :=
  match SceneFrames.first_frame scene_data with
  | None => Py.Ok None
  | Some first_frame =>
      let '(scene_scores, valid_frames) :=
        score_frames description_texts (SceneFrames.frames scene_data) in
      if (0 <? valid_frames)%nat then
        let scene_scores := mean_scores scene_scores valid_frames in
        action_confidence ← action_confidence scene_scores;
        context_confidence ←
          context_confidence description_texts scene_scores;
        best_description_index ← best_description_index scene_scores;
        best_description ←
          Py.getitem description_texts best_description_index;
        let '(category, confidence) :=
          categorize action_confidence context_confidence in
        let duration :=
          (get_seconds (SceneFrames.end_time scene_data)
           - get_seconds (SceneFrames.start_time scene_data))%Q in
        Py.Ok (Some (SceneCategory.Make category confidence
                 (timecode_str (SceneFrames.start_time scene_data))
                 (timecode_str (SceneFrames.end_time scene_data))
                 duration first_frame best_description))
      else Py.Ok None
  end.

(** The number of frames of a scene that a run scores: the value of
    [valid_frames] at line 105, and none when line 84 skips the scene. *)
Definition frames_scored (description_texts : list string)
    (scene_data : SceneFrames.t Frame Timecode) : nat :=
  match SceneFrames.first_frame scene_data with
  | None => O
  | Some _ =>
      (score_frames description_texts (SceneFrames.frames scene_data)).2
  end.

(** One step of the scene loop on the dictionary being built. *)
Definition classify_item (description_texts : list string)
    (acc : Py.outcome (gmap nat (SceneCategory.t Frame)))
    (item : nat * SceneFrames.t Frame Timecode)
    : Py.outcome (gmap nat (SceneCategory.t Frame)) :=
  scene_categories ← acc;
  r ← classify_scene description_texts item.2;
  Py.Ok (match r with
         | Some record => <[item.1 := record]> scene_categories
         | None => scene_categories
         end).

Definition classify_and_categorize_scenes
    (scene_frames : gmap nat (SceneFrames.t Frame Timecode))
    (description_phrases : list string)
    : Py.outcome (gmap nat (SceneCategory.t Frame)) :=
  foldl (classify_item description_phrases) (Py.Ok ∅)
    (map_to_list scene_frames).

End Classifier.

(** ** [convert_timestamp_to_seconds] *)

Module Timestamp.

(** [timestamp.split(':')]. *)
Fixpoint split_colon (s : string) : list string :=
  match s with
  | EmptyString => [EmptyString]
  | String c rest =>
      match split_colon rest with
      | [] => []
      | p :: ps =>
          if Ascii.eqb c ":"%char then EmptyString :: p :: ps
          else String c p :: ps
      end
  end.

Definition digit (c : ascii) : option Z :=
  let n := Z.of_nat (nat_of_ascii c) in
  if ((48 <=? n) && (n <=? 57))%Z then Some (n - 48)%Z else None.

(** Digits with at most one point: [mant] is the number read so far
    without its point, [frac] the count of digits after the point, [any]
    whether a digit was seen. *)
Fixpoint scan (s : string) (mant : Z) (frac : option nat) (any : bool)
    : option Q :=
  match s with
  | EmptyString =>
      if any then
        Some (Qred (inject_Z mant / inject_Z (10 ^ Z.of_nat (default O frac))))
      else None
  | String c rest =>
      if Ascii.eqb c "."%char then
        match frac with
        | None => scan rest mant (Some O) any
        | Some _ => None
        end
      else
        d ← digit c; scan rest (10 * mant + d)%Z (S <$> frac) true
  end.

(** [float(s)] on plain decimal literals: an optional sign, digits, an
    optional point and digits, read as the rational they denote.  This is
    the value of [float(s)] when a double holds that rational exactly; a
    literal that [float] has to round, or that overflows to [inf], is
    outside the embedding, and so are the other spellings that Python
    accepts (exponents, [inf], [nan], blanks, underscores), which are not
    distinguished here from malformed text. *)
Definition float (s : string) : Py.outcome Q :=
  let r :=
    match s with
    | String "-"%char rest => Qopp <$> scan rest 0 None false
    | String "+"%char rest => scan rest 0 None false
    | _ => scan s 0 None false
    end in
  match r with
  | Some q => Py.Ok q
  | None => Py.Raise Py.ValueError
  end.

(** [int(x)] on a finite float: truncation toward zero.  The errors of
    [int] on [inf] and [nan] do not arise on the values of the embedding. *)
Definition int (x : Q) : Z := Z.quot (Qnum x) (Zpos (Qden x)).

Definition convert_timestamp_to_seconds (timestamp : string) : Py.outcome Q :=
  match split_colon timestamp with
  | [h; m; s] =>
      h ← float h; m ← float m; s ← float s;
      Py.Ok (inject_Z (int h) * 3600 + inject_Z (int m) * 60 + s)%Q
  | _ => Py.Raise Py.ValueError
  end.

End Timestamp.

(** ** [add_text_with_opencv]: where the caption is drawn *)

Module Caption.

(** Lines 138-139, on [frame.shape[1]], [frame.shape[0]] and the text size
    given by [cv2.getTextSize]; [//] is floor division. *)
Definition text_x (frame_width text_width : Z) : Z :=
  ((frame_width - text_width) / 2)%Z.

Definition text_y (frame_height text_height : Z) : Z :=
  ((frame_height + text_height) / 2)%Z.

(** Line 140: the two corners handed to [cv2.rectangle]. *)
Definition rectangle (frame_width frame_height text_width text_height : Z)
    : (Z * Z) * (Z * Z) :=
  let text_x := text_x frame_width text_width in
  let text_y := text_y frame_height text_height in
  ((text_x, text_y - text_height - 10)%Z,
   (text_x + text_width, text_y + 10)%Z).

End Caption.

(** ** [save_clip]: the name of the clip file *)

Module Clip.

(** [category.replace(' ', '_')]. *)
Fixpoint replace_space (s : string) : string :=
  match s with
  | EmptyString => EmptyString
  | String c s =>
      String (if Ascii.eqb c " "%char then "_"%char else c) (replace_space s)
  end.

(** Line 168; [pretty] writes a natural number in decimal, as [str] does. *)
Definition output_filename (scene_id : nat) (category : string) : string :=
  "scene_" +:+ pretty (scene_id + 1)%nat +:+ "_"
  +:+ replace_space category +:+ ".mp4".

End Clip.

(** ** Notions of the specification *)

(** The characters of a text. *)
Fixpoint chars (s : string) : list ascii :=
  match s with
  | EmptyString => []
  | String c s => c :: chars s
  end.


(** The arithmetic mean of a list of scores: their sum over their number. *)
Definition arithmetic_mean (l : list Q) : Q :=
  (foldr Qplus 0 l / inject_Z (Z.of_nat (length l)))%Q.

(** A score in the unit interval. *)
Definition unit_interval (x : Q) : Prop := (0 <= x)%Q ∧ (x <= 1)%Q.

(** The character of a decimal digit, and the text and the value of a list
    of decimal digits, most significant first. *)
Definition digit_char (d : nat) : ascii := ascii_of_nat (48 + d).

Fixpoint digits_string (ds : list nat) : string :=
  match ds with
  | [] => EmptyString
  | d :: ds => String (digit_char d) (digits_string ds)
  end.

Definition digits_value (ds : list nat) : Z :=
  foldl (λ acc d, 10 * acc + Z.of_nat d)%Z 0%Z ds.

(** A rational that a double holds exactly: [p / 2^m] with [|p|] at most
    [2^53] and [m] within the exponent range.  The doubles of larger
    magnitude are left out. *)
Definition binary64_exact (q : Q) : Prop :=
  ∃ (p : Z) (m : nat),
    (Z.abs p ≤ 2 ^ 53)%Z ∧ (m ≤ 1074)%nat ∧
    (q == inject_Z p / inject_Z (2 ^ Z.of_nat m))%Q.

(** The number of colons in a text. *)
Fixpoint count_colons (s : string) : nat :=
  match s with
  | EmptyString => O
  | String c s =>
      ((if Ascii.eqb c ":"%char then 1 else 0) + count_colons s)%nat
  end.

(** The decoder after [n] calls of [cap.read()]. *)
Fixpoint cap_after {Frame Cap : Type} (cap_read : Cap → option Frame * Cap)
    (n : nat) (cap : Cap) : Cap :=
  match n with
  | O => cap
  | S n => cap_after cap_read n (cap_read cap).2
  end.

(** ** A small run of the pipeline

    Concrete inputs on which the theorems below are exercised.  A test frame
    is the list of logits the stand-in model gives it; a frame whose list
    has the wrong length is one the model fails on.  The stand-in decoder is
    a list of slots, [None] for a slot that does not decode, and moves one
    slot forward on every read. *)

Module Demo.

Definition Frame : Type := list Q.
Definition Cap : Type := list (option Frame) * nat.

Definition get_frames (t : nat) : nat := t.
Definition get_seconds (t : nat) : Q := Z.of_nat t # 25.
Definition timecode_str (t : nat) : string :=
  if (t <? 25)%nat then "00:00:00" else "00:00:01".

Definition cap_set_pos (n : nat) (cap : Cap) : Cap := (cap.1, n).
Definition cap_get_pos (cap : Cap) : nat := cap.2.
Definition cap_read (cap : Cap) : option Frame * Cap :=
  (mjoin (cap.1 !! cap.2), (cap.1, S cap.2)).

Definition frame_logits (texts : list string) (frame : Frame)
    : option (list Q) :=
  if (length frame =? length texts)%nat then Some frame else None.

(** A coarse exponential: [2 ^ floor x]. *)
Definition exp (x : Q) : Q := (2 ^ Qfloor x)%Q.

Definition phrases : list string :=
  ["running"; "jumping"; "fighting"; "dancing"; "driving";
   "swimming"; "climbing"; "throwing"; "falling"; "chasing";
   "a city street"; "a quiet room"].

Definition phrases10 : list string := take 10 phrases.

Definition action_frame : Frame := replicate 10 2%Q ++ [0%Q; 0%Q].
Definition even_frame : Frame := replicate 12 0%Q.
Definition malformed_frame : Frame := [1%Q].

(** Slots 0-2: a scene with a good frame, a slot that does not decode and a
    frame the model fails on.  Slots 3-4: nothing decodes.  Slot 5: only a
    frame the model fails on.  Slot 6: a frame that scores every phrase
    alike. *)
Definition video : list (option Frame) :=
  [Some action_frame; None; Some malformed_frame;
   None; None;
   Some malformed_frame;
   Some even_frame].

Definition scene_list : list (nat * nat) :=
  [(0, 3); (3, 5); (5, 6); (6, 7)]%nat.

Definition extract_frames (fuel : nat) (cap : Cap)
    (scene_list : list (nat * nat))
    : option (gmap nat (SceneFrames.t Frame nat)) :=
  extract_frames get_frames cap_set_pos cap_get_pos cap_read
    fuel cap scene_list.

Definition scene_frames : gmap nat (SceneFrames.t Frame nat) :=
  default ∅ (extract_frames 7 (video, 0%nat) scene_list).

Definition scene0 : SceneFrames.t Frame nat :=
  SceneFrames.Make 0%nat 3%nat [action_frame; malformed_frame]
    (Some action_frame).

Definition scene3 : SceneFrames.t Frame nat :=
  SceneFrames.Make 6%nat 7%nat [even_frame] (Some even_frame).

(** A scene for a vocabulary of ten phrases. *)
Definition scene10 : SceneFrames.t Frame nat :=
  SceneFrames.Make 0%nat 1%nat [replicate 10 0%Q] (Some (replicate 10 0%Q)).

Definition scene_mean_scores (texts : list string)
    (scene_data : SceneFrames.t Frame nat) : list Q :=
  scene_mean_scores frame_logits exp texts scene_data.

Definition frames_scored (texts : list string)
    (scene_data : SceneFrames.t Frame nat) : nat :=
  frames_scored frame_logits exp texts scene_data.

Definition classify_scene (texts : list string)
    (scene_data : SceneFrames.t Frame nat)
    : Py.outcome (option (SceneCategory.t Frame)) :=
  classify_scene get_seconds timecode_str frame_logits exp texts scene_data.

Definition classify_and_categorize_scenes
    (scene_frames : gmap nat (SceneFrames.t Frame nat))
    (texts : list string)
    : Py.outcome (gmap nat (SceneCategory.t Frame)) :=
  classify_and_categorize_scenes get_seconds timecode_str frame_logits exp
    scene_frames texts.

Definition no_record : SceneCategory.t Frame :=
  SceneCategory.Make "" 0%Q "" "" 0%Q [] "".

Definition record_of (o : Py.outcome (option (SceneCategory.t Frame)))
    : SceneCategory.t Frame :=
  match o with
  | Py.Ok (Some r) => r
  | _ => no_record
  end.

Definition record0 : SceneCategory.t Frame :=
  Eval vm_compute in record_of (classify_scene phrases scene0).

Definition record3 : SceneCategory.t Frame :=
  Eval vm_compute in record_of (classify_scene phrases scene3).

(** A vocabulary of nine phrases and a scene for it. *)
Definition phrases9 : list string := take 9 phrases.

Definition scene9 : SceneFrames.t Frame nat :=
  SceneFrames.Make 0%nat 1%nat [replicate 9 0%Q] (Some (replicate 9 0%Q)).

(** A scene list whose only interval ends where it starts. *)
Definition still_scene_list : list (nat * nat) := [(2, 2)]%nat.

Definition still_bundle : SceneFrames.t Frame nat :=
  SceneFrames.Make 2%nat 2%nat [] None.

(** The digit fields of the timestamp 0:01:30.5. *)
Definition hours : list nat := [0]%nat.
Definition minutes : list nat := [0; 1]%nat.
Definition seconds : list nat := [3; 0]%nat.
Definition fraction : list nat := [5]%nat.

(** A decoder that moves on only when a read succeeds. *)
Definition stuck_read (cap : Cap) : option Frame * Cap :=
  match mjoin (cap.1 !! cap.2) with
  | Some frame => (Some frame, (cap.1, S cap.2))
  | None => (None, cap)
  end.

Definition scene_categories : gmap nat (SceneCategory.t Frame) :=
  match classify_and_categorize_scenes scene_frames phrases with
  | Py.Ok out => out
  | Py.Raise _ => ∅
  end.

End Demo.

(** * Facts *)

(** ** Python sums, maxima and indices *)

Lemma foldl_Qplus_acc (a : Q) (l : list Q) :
  (foldl Qplus a l == a + foldr Qplus 0 l)%Q.
Proof.
  revert a. induction l as [|x l IH]; intros a; simpl.
  - ring.
  - rewrite IH. ring.
Qed.

Lemma sum_foldr (l : list Q) : (Py.sum l == foldr Qplus 0 l)%Q.
Proof. unfold Py.sum. rewrite foldl_Qplus_acc. ring. Qed.

Lemma foldr_Qplus_perm (l k : list Q) :
  l ≡ₚ k → (foldr Qplus 0 l == foldr Qplus 0 k)%Q.
Proof.
  induction 1 as [|x l k _ IH|x y l|l k m _ IH1 _ IH2]; simpl.
  - reflexivity.
  - by rewrite IH.
  - ring.
  - by rewrite IH1.
Qed.

Lemma sum_at_spec (acc : Q) (l : list Q) (idxs : list nat) :
  Forall (λ i, i < length l)%nat idxs →
  Py.sum_at acc l idxs = Py.Ok (foldl Qplus acc ((λ i, nth i l 0%Q) <$> idxs)).
Proof.
  revert acc. induction idxs as [|i idxs IH]; intros acc Hin; simpl; [done|].
  apply Forall_cons in Hin as [Hi Hin].
  unfold Py.getitem. destruct (lookup_lt_is_Some_2 l i Hi) as [x Hx].
  rewrite Hx. simpl. rewrite IH by done.
  by rewrite (nth_lookup_Some _ _ _ _ Hx).
Qed.

Lemma sum_at_Ok_inv (acc : Q) (l : list Q) (idxs : list nat) (q : Q) :
  Py.sum_at acc l idxs = Py.Ok q → Forall (λ i, i < length l)%nat idxs.
Proof.
  revert acc. induction idxs as [|i idxs IH]; intros acc H; simpl in *; [constructor|].
  unfold Py.getitem in H. destruct (l !! i) as [x|] eqn:Hx; simpl in H; [|done].
  constructor; [by eapply lookup_lt_Some | by eapply IH].
Qed.

Lemma sum_at_raise (acc : Q) (l : list Q) (idxs : list nat) (e : Py.exn) :
  Py.sum_at acc l idxs = Py.Raise e → e = Py.IndexError ∧ Exists (λ i, length l ≤ i)%nat idxs.
Proof.
  revert acc. induction idxs as [|i idxs IH]; intros acc H; simpl in *; [done|].
  unfold Py.getitem in H. destruct (l !! i) as [x|] eqn:Hx; simpl in H.
  - destruct (IH _ H) as [-> ?]. split; [done|]. by apply Exists_cons_tl.
  - split; [congruence|]. apply Exists_cons_hd. by apply lookup_ge_None.
Qed.

Lemma nth_seq_take_drop (l : list Q) (a n : nat) :
  (a + n ≤ length l)%nat →
  (λ i, nth i l 0%Q) <$> seq a n = take n (drop a l).
Proof.
  intros H. apply list_eq. intros i.
  rewrite list_lookup_fmap. destruct (decide (i < n)%nat) as [Hi|Hi].
  - rewrite lookup_seq_lt by done. simpl.
    rewrite lookup_take_lt by done. rewrite lookup_drop.
    destruct (lookup_lt_is_Some_2 l (a + i)) as [x Hx]; [lia|].
    rewrite Hx. f_equal. by apply nth_lookup_Some.
  - rewrite lookup_seq_ge by lia. simpl.
    symmetry. apply lookup_ge_None. rewrite length_take. lia.
Qed.

Lemma foldr_Qplus_nonneg (l : list Q) :
  Forall (λ x, 0 <= x)%Q l → (0 <= foldr Qplus 0 l)%Q.
Proof.
  induction 1 as [|x l Hx _ IH]; simpl; [apply Qle_refl|]. lra.
Qed.

Lemma foldr_Qplus_ge (l : list Q) (x : Q) :
  Forall (λ y, 0 <= y)%Q l → x ∈ l → (x <= foldr Qplus 0 l)%Q.
Proof.
  intros Hall Hin. induction Hin as [x l|x y l Hin IH]; simpl.
  - apply Forall_cons in Hall as [_ Hall].
    pose proof (foldr_Qplus_nonneg l Hall). lra.
  - apply Forall_cons in Hall as [Hy Hall]. specialize (IH Hall). lra.
Qed.

Lemma Forall_zip_with_both {A B C} (P : A → Prop) (R : B → Prop)
    (S : C → Prop) (f : A → B → C) (l : list A) (k : list B) :
  Forall P l → Forall R k → (∀ x y, P x → R y → S (f x y)) →
  Forall S (zip_with f l k).
Proof.
  intros Hl. revert k. induction Hl as [|x l Hx _ IH]; intros k Hk Hf; simpl;
    [constructor|].
  destruct Hk as [|y k Hy Hk]; [constructor|].
  constructor; [by apply Hf|by apply IH].
Qed.

(** ** The action/context split *)

Lemma context_indices_perm (texts : list string) :
  context_indices texts ≡ₚ seq 10 (length texts - 10).
Proof.
  unfold context_indices. apply NoDup_Permutation.
  - apply NoDup_elements.
  - apply NoDup_seq.
  - intros i. rewrite elem_of_elements, elem_of_difference, elem_of_set_seq,
      elem_of_list_to_set, elem_of_seq.
    assert (i ∈ action_indices ↔ (i < 10)%nat) as ->.
    { unfold action_indices. rewrite !elem_of_cons, elem_of_nil. lia. }
    lia.
Qed.

Lemma context_indices_length (texts : list string) :
  length (context_indices texts) = (length texts - 10)%nat.
Proof. by rewrite context_indices_perm, length_seq. Qed.

Lemma gt_spec (a b : Q) : Py.gt a b = true ↔ (b < a)%Q.
Proof.
  unfold Py.gt. rewrite negb_true_iff. split.
  - intros H. apply Qnot_le_lt. intros Hle. apply Qle_bool_iff in Hle. congruence.
  - intros H. apply not_true_is_false. intros Hle. apply Qle_bool_iff in Hle.
    apply (Qlt_not_le _ _ H Hle).
Qed.

Lemma gt_false (a b : Q) : Py.gt a b = false ↔ (a <= b)%Q.
Proof.
  unfold Py.gt. rewrite negb_false_iff. apply Qle_bool_iff.
Qed.

Lemma running_max_spec (x : Q) (xs : list Q) :
  let m := foldl (λ m y, if Py.gt y m then y else m) x xs in
  m ∈ x :: xs ∧ Forall (λ y, y <= m)%Q (x :: xs).
Proof.
  revert x. induction xs as [|y ys IH]; intros x; simpl.
  - split; [apply list_elem_of_here|]. constructor; [apply Qle_refl|constructor].
  - destruct (Py.gt y x) eqn:Hg.
    + destruct (IH y) as [Hin Hall]. split.
      * apply elem_of_cons in Hin as [->|Hin].
        -- apply list_elem_of_further, list_elem_of_here.
        -- by do 2 apply list_elem_of_further.
      * apply Forall_cons in Hall as [Hy Hall].
        constructor; [|by constructor].
        apply gt_spec in Hg. eapply Qle_trans; [apply Qlt_le_weak, Hg|done].
    + destruct (IH x) as [Hin Hall]. split.
      * apply elem_of_cons in Hin as [->|Hin].
        -- apply list_elem_of_here.
        -- by do 2 apply list_elem_of_further.
      * apply Forall_cons in Hall as [Hx Hall].
        constructor; [done|]. constructor; [|done].
        apply gt_false in Hg. by eapply Qle_trans.
Qed.

Lemma max_spec (l : list Q) (m : Q) :
  Py.max l = Py.Ok m → m ∈ l ∧ Forall (λ y, y <= m)%Q l.
Proof.
  destruct l as [|x xs]; simpl; [done|]. intros [= <-]. apply running_max_spec.
Qed.

Lemma max_nonempty (l : list Q) : l ≠ [] → ∃ m, Py.max l = Py.Ok m.
Proof. destruct l; [done|]. simpl. eauto. Qed.

Lemma index_spec (x : Q) (l : list Q) (i : nat) :
  Py.index x l = Py.Ok i →
  (∃ y, l !! i = Some y ∧ y == x) ∧
  (∀ j y, (j < i)%nat → l !! j = Some y → ¬ y == x).
Proof.
  revert i. induction l as [|y ys IH]; intros i; simpl; [done|].
  destruct (Qeq_bool y x) eqn:Heq.
  - intros [= <-]. split.
    + exists y. split; [done|]. by apply Qeq_bool_iff.
    + intros j z Hj. lia.
  - destruct (Py.index x ys) as [k|e] eqn:Hk; simpl; [|done].
    intros [= <-]. destruct (IH k eq_refl) as [Hfound Hbefore]. split; [done|].
    intros [|j] z Hj Hz; simpl in Hz.
    + injection Hz as <-. by apply Qeq_bool_neq.
    + apply (Hbefore j z); [lia|done].
Qed.

Lemma index_found (x : Q) (l : list Q) :
  x ∈ l → ∃ i, Py.index x l = Py.Ok i.
Proof.
  induction 1 as [x l|x y l Hin [i IH]]; simpl.
  - rewrite Qeq_bool_refl. eauto.
  - destruct (Qeq_bool y x); [eauto|]. rewrite IH. simpl. eauto.
Qed.

Lemma truediv_Ok (x : Q) (n : nat) :
  (0 < n)%nat → Py.truediv x n = Py.Ok (x / inject_Z (Z.of_nat n))%Q.
Proof. destruct n; [lia|done]. Qed.

Lemma truediv_Ok_inv (x q : Q) (n : nat) :
  Py.truediv x n = Py.Ok q → (0 < n)%nat ∧ q = (x / inject_Z (Z.of_nat n))%Q.
Proof. destruct n; simpl; [done|]. intros [= <-]. split; [lia|done]. Qed.

Lemma action_indices_seq : action_indices = seq 0 10.
Proof. reflexivity. Qed.

Lemma action_confidence_inv (scene_scores : list Q) (a : Q) :
  action_confidence scene_scores = Py.Ok a →
  (10 ≤ length scene_scores)%nat ∧
  (a == arithmetic_mean (take 10 scene_scores))%Q.
Proof.
  unfold action_confidence.
  destruct (Py.sum_at 0 scene_scores action_indices) as [s|] eqn:Hs; [|done].
  simpl. intros [= <-].
  assert (10 ≤ length scene_scores)%nat as Hlen.
  { apply sum_at_Ok_inv in Hs. rewrite Forall_forall in Hs.
    assert (9 < length scene_scores)%nat; [|lia].
    apply Hs. unfold action_indices. set_solver. }
  split; [done|].
  assert (s = Py.sum (take 10 scene_scores)) as ->.
  { rewrite sum_at_spec in Hs by (by eapply sum_at_Ok_inv).
    rewrite action_indices_seq, nth_seq_take_drop, drop_0 in Hs by (simpl; lia).
    unfold Py.sum. congruence. }
  unfold arithmetic_mean. rewrite length_take, Nat.min_l by done.
  by rewrite sum_foldr.
Qed.

Lemma action_confidence_Ok (scene_scores : list Q) :
  (10 ≤ length scene_scores)%nat → ∃ a, action_confidence scene_scores = Py.Ok a.
Proof.
  intros Hlen. unfold action_confidence. rewrite sum_at_spec.
  - simpl. eauto.
  - rewrite Forall_forall. intros i. unfold action_indices.
    rewrite !elem_of_cons, elem_of_nil. lia.
Qed.

Lemma context_indices_bound (texts : list string) :
  Forall (λ i, i < length texts)%nat (context_indices texts).
Proof.
  rewrite Forall_forall. intros i. rewrite context_indices_perm, elem_of_seq. lia.
Qed.

Lemma context_confidence_inv (texts : list string) (scene_scores : list Q) (c : Q) :
  context_confidence texts scene_scores = Py.Ok c →
  (10 < length texts)%nat ∧ (length texts ≤ length scene_scores)%nat ∧
  (c == arithmetic_mean (take (length texts - 10) (drop 10 scene_scores)))%Q.
Proof.
  unfold context_confidence.
  destruct (Py.sum_at 0 scene_scores (context_indices texts)) as [s|] eqn:Hs;
    [|done].
  simpl. intros [HM ->]%truediv_Ok_inv.
  rewrite context_indices_length in HM |- *.
  pose proof (sum_at_Ok_inv _ _ _ _ Hs) as Hin.
  assert (length texts ≤ length scene_scores)%nat as Hlen.
  { rewrite Forall_forall in Hin.
    assert (length texts - 1 < length scene_scores)%nat; [|lia].
    apply Hin. rewrite context_indices_perm, elem_of_seq. lia. }
  split; [lia|]. split; [done|].
  rewrite sum_at_spec in Hs by done. injection Hs as <-.
  unfold arithmetic_mean. rewrite length_take, length_drop, Nat.min_l by lia.
  rewrite foldl_Qplus_acc, Qplus_0_l.
  rewrite <- (nth_seq_take_drop scene_scores 10 (length texts - 10)) by lia.
  by rewrite (foldr_Qplus_perm _ _
    (fmap_Permutation (λ i, nth i scene_scores 0%Q) _ _
       (context_indices_perm texts))).
Qed.

Lemma context_confidence_Ok (texts : list string) (scene_scores : list Q) :
  (10 < length texts)%nat → (length texts ≤ length scene_scores)%nat →
  ∃ c, context_confidence texts scene_scores = Py.Ok c.
Proof.
  intros HM Hlen. unfold context_confidence. rewrite sum_at_spec.
  - simpl. rewrite truediv_Ok; [eauto|]. rewrite context_indices_length. lia.
  - eapply Forall_impl; [apply context_indices_bound|]. simpl. lia.
Qed.

Lemma best_description_index_inv (scene_scores : list Q) (i : nat) :
  best_description_index scene_scores = Py.Ok i →
  ∃ x, scene_scores !! i = Some x ∧
    (∀ j y, scene_scores !! j = Some y → (y <= x)%Q) ∧
    (∀ j y, (j < i)%nat → scene_scores !! j = Some y → (y < x)%Q).
Proof.
  unfold best_description_index.
  destruct (Py.max scene_scores) as [m|] eqn:Hm; [|done]. simpl. intros Hi.
  apply max_spec in Hm as [_ Hub]. rewrite Forall_forall in Hub.
  apply index_spec in Hi as [(x & Hx & Hxm) Hbefore].
  exists x. split; [done|]. split.
  - intros j y Hy. rewrite Hxm. apply Hub. by eapply list_elem_of_lookup_2.
  - intros j y Hj Hy. rewrite Hxm.
    assert (y <= m)%Q as [?|Heq]%Qle_lteq; [|done|].
    + apply Hub. by eapply list_elem_of_lookup_2.
    + by destruct (Hbefore j y Hj Hy).
Qed.

Lemma best_description_index_Ok (scene_scores : list Q) :
  scene_scores ≠ [] →
  ∃ i, best_description_index scene_scores = Py.Ok i ∧
       (i < length scene_scores)%nat.
Proof.
  intros Hne. unfold best_description_index.
  destruct (max_nonempty _ Hne) as [m Hm]. rewrite Hm. simpl.
  destruct (max_spec _ _ Hm) as [Hin _].
  destruct (index_found _ _ Hin) as [i Hi]. exists i. split; [done|].
  apply index_spec in Hi as [(x & Hx & _) _]. by eapply lookup_lt_Some.
Qed.

(** ** The classifier *)

Section ClassifierFacts.
Context {Frame Timecode : Type}.
Variable get_seconds : Timecode → Q.
Variable timecode_str : Timecode → string.
Variable frame_logits : list string → Frame → option (list Q).
Variable exp : Q → Q.

Local Abbreviation score_frame := (score_frame frame_logits exp).
Local Abbreviation score_frames := (score_frames frame_logits exp).
Local Abbreviation frame_probs := (frame_probs frame_logits exp).
Local Abbreviation scene_mean_scores :=
  (@scene_mean_scores Frame Timecode frame_logits exp).
Local Abbreviation frames_scored :=
  (@frames_scored Frame Timecode frame_logits exp).
Local Abbreviation classify_scene :=
  (classify_scene get_seconds timecode_str frame_logits exp).
Local Abbreviation classify_item :=
  (classify_item get_seconds timecode_str frame_logits exp).
Local Abbreviation classify_and_categorize_scenes :=
  (classify_and_categorize_scenes get_seconds timecode_str frame_logits exp).

Lemma softmax_length (logits : list Q) :
  length (softmax exp logits) = length logits.
Proof. unfold softmax. by rewrite length_fmap. Qed.

Lemma frame_probs_is_Some texts f :
  is_Some (frame_probs texts f) ↔ is_Some (frame_logits texts f).
Proof. unfold frame_probs. by rewrite fmap_is_Some. Qed.

Lemma foldl_score_frame_count texts frames st :
  (foldl (score_frame texts) st frames).2 =
  (st.2 + length (filter (λ f, is_Some (frame_logits texts f)) frames))%nat.
Proof.
  revert st. induction frames as [|f frames IH]; intros st; simpl; [lia|].
  rewrite IH. unfold score_frame, frame_probs.
  rewrite filter_cons.
  destruct (frame_logits texts f) as [l|]; simpl; lia.
Qed.

Lemma score_frames_count texts frames :
  (score_frames texts frames).2 =
  length (filter (λ f, is_Some (frame_logits texts f)) frames).
Proof. unfold score_frames. by rewrite foldl_score_frame_count. Qed.

Lemma score_frames_pos texts frames :
  (0 < (score_frames texts frames).2)%nat ↔
  Exists (λ f, is_Some (frame_logits texts f)) frames.
Proof.
  rewrite score_frames_count. rewrite Exists_exists. split.
  - intros H. destruct (filter _ frames) as [|f k] eqn:Hk; simpl in H; [lia|].
    assert (f ∈ filter (λ f, is_Some (frame_logits texts f)) frames) as Hf.
    { rewrite Hk. apply list_elem_of_here. }
    apply list_elem_of_filter in Hf as [? ?]. eauto.
  - intros (f & Hin & Hs).
    assert (f ∈ filter (λ f, is_Some (frame_logits texts f)) frames) as Hf.
    { by apply list_elem_of_filter. }
    destruct (filter _ frames); [by apply elem_of_nil in Hf|simpl; lia].
Qed.

Lemma foldl_score_frame_filter texts frames st :
  foldl (score_frame texts) st frames =
  foldl (score_frame texts) st
    (filter (λ f, is_Some (frame_logits texts f)) frames).
Proof.
  revert st. induction frames as [|f frames IH]; intros st; simpl; [done|].
  rewrite filter_cons. case_decide as Hf; simpl.
  - apply IH.
  - rewrite <- IH. f_equal. unfold score_frame, frame_probs.
    destruct (frame_logits texts f); [|done]. exfalso. eauto.
Qed.

Lemma foldl_score_frame_length_le texts frames st :
  (length (foldl (score_frame texts) st frames).1 ≤ length st.1)%nat.
Proof.
  revert st. induction frames as [|f frames IH]; intros st; simpl; [lia|].
  etrans; [apply IH|]. unfold score_frame.
  destruct (frame_probs texts f); simpl; [|lia].
  rewrite length_zip_with. lia.
Qed.

Lemma foldl_score_frame_length texts frames st :
  (∀ f l, frame_logits texts f = Some l → length st.1 ≤ length l)%nat →
  length (foldl (score_frame texts) st frames).1 = length st.1.
Proof.
  revert st. induction frames as [|f frames IH]; intros st Hc; simpl; [done|].
  assert (length (score_frame texts st f).1 = length st.1) as Hst.
  { unfold score_frame, frame_probs.
    destruct (frame_logits texts f) as [l|] eqn:Hl; simpl; [|done].
    rewrite length_zip_with, softmax_length. specialize (Hc f l Hl). lia. }
  rewrite IH; [done|]. intros f' l Hl. rewrite Hst. eauto.
Qed.

Lemma score_frames_length_le texts frames :
  (length (score_frames texts frames).1 ≤ length texts)%nat.
Proof.
  unfold score_frames. etrans; [apply foldl_score_frame_length_le|].
  simpl. by rewrite length_replicate.
Qed.

Lemma score_frames_length texts frames :
  (∀ f l, frame_logits texts f = Some l → length texts ≤ length l)%nat →
  length (score_frames texts frames).1 = length texts.
Proof.
  intros Hc. unfold score_frames.
  rewrite foldl_score_frame_length; simpl; rewrite length_replicate; done.
Qed.

Lemma mean_scores_length s v : length (mean_scores s v) = length s.
Proof. unfold mean_scores. by rewrite length_fmap. Qed.


Lemma classify_scene_inv texts sd r :
  classify_scene texts sd = Py.Ok (Some r) →
  ∃ ff a c i best,
    SceneFrames.first_frame sd = Some ff ∧
    (0 < (score_frames texts (SceneFrames.frames sd)).2)%nat ∧
    action_confidence (scene_mean_scores texts sd) = Py.Ok a ∧
    context_confidence texts (scene_mean_scores texts sd) = Py.Ok c ∧
    best_description_index (scene_mean_scores texts sd) = Py.Ok i ∧
    texts !! i = Some best ∧
    r = SceneCategory.Make (categorize a c).1 (categorize a c).2
          (timecode_str (SceneFrames.start_time sd))
          (timecode_str (SceneFrames.end_time sd))
          (get_seconds (SceneFrames.end_time sd)
           - get_seconds (SceneFrames.start_time sd))%Q ff best.
Proof.
  unfold classify_scene, scene_mean_scores.
  destruct (SceneFrames.first_frame sd) as [ff|]; [|done].
  destruct (score_frames texts (SceneFrames.frames sd)) as [s v]. simpl.
  destruct (0 <? v)%nat eqn:Hv; [|done]. apply Nat.ltb_lt in Hv.
  destruct (action_confidence (mean_scores s v)) as [a|] eqn:Ha; [|done].
  destruct (context_confidence texts (mean_scores s v)) as [c|] eqn:Hc; [|done].
  destruct (best_description_index (mean_scores s v)) as [i|] eqn:Hi; [|done].
  simpl. unfold Py.getitem. destruct (texts !! i) as [best|] eqn:Hb; [|done].
  simpl. destruct (categorize a c) as [cat conf] eqn:Hcat. intros [= <-].
  exists ff, a, c, i, best. by rewrite Hcat.
Qed.

Lemma categorize_action (a c : Q) :
  (c < a)%Q → categorize a c = ("Action Scene", a).
Proof. intros H. unfold categorize. by rewrite (proj2 (gt_spec a c) H). Qed.

Lemma categorize_context (a c : Q) :
  ¬ (c < a)%Q → categorize a c = ("Context Scene", c).
Proof.
  intros H. unfold categorize. destruct (Py.gt a c) eqn:Hg; [|done].
  by apply gt_spec in Hg.
Qed.

(** C2: the record of a classified scene is labelled "Action Scene", with the
    action confidence as its confidence, exactly when the action confidence
    is strictly greater than the context confidence; in every other case,
    equality included, it is labelled "Context Scene" with the context
    confidence. *)
Theorem category_follows_strict_comparison texts sd r :
  classify_scene texts sd = Py.Ok (Some r) →
  ∃ a c,
    action_confidence (scene_mean_scores texts sd) = Py.Ok a ∧
    context_confidence texts (scene_mean_scores texts sd) = Py.Ok c ∧
    ((SceneCategory.category r = "Action Scene" ∧
      SceneCategory.confidence r = a) ↔ (c < a)%Q) ∧
    (¬ (c < a)%Q →
     SceneCategory.category r = "Context Scene" ∧
     SceneCategory.confidence r = c) ∧
    ((a == c)%Q →
     SceneCategory.category r = "Context Scene" ∧
     SceneCategory.confidence r = c).
Proof.
  intros (ff & a & c & i & best & _ & _ & Ha & Hc & _ & _ & ->)%classify_scene_inv.
  exists a, c. split; [done|]. split; [done|]. simpl.
  assert (¬ (c < a)%Q →
          (categorize a c).1 = "Context Scene" ∧ (categorize a c).2 = c) as Hctx.
  { intros Hn. by rewrite categorize_context. }
  split; [|split].
  - split.
    + intros [Hcat _]. destruct (Qlt_le_dec c a) as [?|Hle]; [done|].
      rewrite categorize_context in Hcat by by apply Qle_not_lt.
      discriminate Hcat.
    + intros Hlt. by rewrite categorize_action.
  - done.
  - intros Heq. apply Hctx. rewrite Heq. apply Qlt_irrefl.
Qed.

(** C10: the confidence of every emitted record is the larger of the action
    and the context confidence, so it is below neither of them. *)
Theorem confidence_is_max_of_partition texts sd r :
  classify_scene texts sd = Py.Ok (Some r) →
  ∃ a c,
    action_confidence (scene_mean_scores texts sd) = Py.Ok a ∧
    context_confidence texts (scene_mean_scores texts sd) = Py.Ok c ∧
    (SceneCategory.confidence r == Qmax a c)%Q ∧
    (a <= SceneCategory.confidence r)%Q ∧
    (c <= SceneCategory.confidence r)%Q.
Proof.
  intros (ff & a & c & i & best & _ & _ & Ha & Hc & _ & _ & ->)%classify_scene_inv.
  exists a, c. split; [done|]. split; [done|]. simpl.
  destruct (Qlt_le_dec c a) as [Hlt|Hle].
  - rewrite categorize_action by done. simpl. split; [|split].
    + symmetry. apply Q.max_l. by apply Qlt_le_weak.
    + apply Qle_refl.
    + by apply Qlt_le_weak.
  - rewrite categorize_context by by apply Qle_not_lt. simpl. split; [|split].
    + symmetry. by apply Q.max_r.
    + done.
    + apply Qle_refl.
Qed.

Lemma emitted_scores_length texts sd r :
  classify_scene texts sd = Py.Ok (Some r) →
  length (scene_mean_scores texts sd) = length texts.
Proof.
  intros (ff & a & c & i & best & _ & _ & _ & Hc & _)%classify_scene_inv.
  destruct (context_confidence_inv _ _ _ Hc) as (_ & Hge & _).
  apply Nat.le_antisymm; [|done]. unfold scene_mean_scores.
  rewrite mean_scores_length. apply score_frames_length_le.
Qed.

(** C3: for a classified scene over a vocabulary of M phrases, the action
    confidence is the arithmetic mean of the mean scores at indices 0 to 9,
    and the context confidence is the arithmetic mean of the mean scores at
    the other M - 10 indices. *)
Theorem confidences_are_partition_means texts sd r :
  classify_scene texts sd = Py.Ok (Some r) →
  ∃ a c,
    action_confidence (scene_mean_scores texts sd) = Py.Ok a ∧
    context_confidence texts (scene_mean_scores texts sd) = Py.Ok c ∧
    length (scene_mean_scores texts sd) = length texts ∧
    (a == arithmetic_mean (take 10 (scene_mean_scores texts sd)))%Q ∧
    length (take 10 (scene_mean_scores texts sd)) = 10%nat ∧
    (c == arithmetic_mean (drop 10 (scene_mean_scores texts sd)))%Q ∧
    length (drop 10 (scene_mean_scores texts sd)) = (length texts - 10)%nat.
Proof.
  intros Hr. pose proof (emitted_scores_length _ _ _ Hr) as Hlen.
  apply classify_scene_inv in Hr
    as (ff & a & c & i & best & _ & _ & Ha & Hc & _ & _ & _).
  exists a, c. split; [done|]. split; [done|].
  destruct (action_confidence_inv _ _ Ha) as [Hten Hmean_a].
  destruct (context_confidence_inv _ _ _ Hc) as (HM & Hge & Hmean_c).
  split; [done|]. split; [done|].
  split; [rewrite length_take; lia|].
  rewrite take_ge in Hmean_c by (rewrite length_drop; lia).
  split; [done|]. rewrite length_drop. lia.
Qed.

(** C5: the best description of a classified scene is the phrase at the
    first index whose mean score is maximal: no phrase scores higher, and
    every phrase at a lower index scores strictly lower. *)
Theorem best_description_is_first_maximum texts sd r :
  classify_scene texts sd = Py.Ok (Some r) →
  ∃ i x,
    best_description_index (scene_mean_scores texts sd) = Py.Ok i ∧
    texts !! i = Some (SceneCategory.best_description r) ∧
    scene_mean_scores texts sd !! i = Some x ∧
    (∀ j y, scene_mean_scores texts sd !! j = Some y → (y <= x)%Q) ∧
    (∀ j y, (j < i)%nat →
            scene_mean_scores texts sd !! j = Some y → (y < x)%Q).
Proof.
  intros (ff & a & c & i & best & _ & _ & _ & _ & Hi & Hb & ->)%classify_scene_inv.
  destruct (best_description_index_inv _ _ Hi) as (x & Hx & Hub & Hfirst).
  exists i, x. simpl. done.
Qed.

(** *** The scene loop *)

Lemma foldl_classify_item_raise texts items e :
  foldl (classify_item texts) (Py.Raise e) items = Py.Raise e.
Proof. induction items as [|item items IH]; simpl; done. Qed.

Lemma classify_items_inv texts items acc out :
  NoDup items.*1 →
  foldl (classify_item texts) (Py.Ok acc) items = Py.Ok out →
  (∀ id sd, (id, sd) ∈ items →
     ∃ r, classify_scene texts sd = Py.Ok r ∧
          out !! id = match r with Some _ => r | None => acc !! id end) ∧
  (∀ id, id ∉ items.*1 → out !! id = acc !! id).
Proof.
  revert acc. induction items as [|[k sd] items IH]; intros acc Hnd Hout.
  { simpl in Hout. injection Hout as <-. split; [|done].
    intros id sd' Hin. by apply elem_of_nil in Hin. }
  rewrite fmap_cons in Hnd. apply NoDup_cons in Hnd as [Hk Hnd].
  simpl in Hout, Hk.
  destruct (classify_scene texts sd) as [r|e] eqn:Hr; simpl in Hout;
    [|by rewrite foldl_classify_item_raise in Hout].
  destruct (IH _ Hnd Hout) as [Hin Hout'].
  assert (out !! k = match r with Some _ => r | None => acc !! k end) as Hhead.
  { rewrite (Hout' k Hk). destruct r; [by rewrite lookup_insert_eq|done]. }
  split.
  - intros id sd' [[= -> ->]|Hmem]%elem_of_cons; [eauto|].
    destruct (Hin id sd' Hmem) as (r' & Hr' & Hlook). exists r'. split; [done|].
    rewrite Hlook. destruct r'; [done|].
    assert (id ≠ k) as Hne.
    { intros ->. apply Hk. apply list_elem_of_fmap. by exists (k, sd'). }
    destruct r; [by rewrite lookup_insert_ne|done].
  - intros id Hid. rewrite fmap_cons, not_elem_of_cons in Hid.
    destruct Hid as [Hne Hid]. simpl in Hne. rewrite (Hout' id Hid).
    destruct r; [by rewrite lookup_insert_ne|done].
Qed.

Lemma classify_items_Ok texts items acc :
  (∀ id sd, (id, sd) ∈ items → ∃ r, classify_scene texts sd = Py.Ok r) →
  ∃ out, foldl (classify_item texts) (Py.Ok acc) items = Py.Ok out.
Proof.
  revert acc. induction items as [|[k sd] items IH]; intros acc Hall; simpl.
  { eauto. }
  destruct (Hall k sd) as [r Hr]; [apply list_elem_of_here|].
  rewrite Hr. simpl. apply IH.
  intros id sd' Hin. apply (Hall id sd'). by apply list_elem_of_further.
Qed.

Lemma classify_lookup scene_frames texts out id :
  classify_and_categorize_scenes scene_frames texts = Py.Ok out →
  match scene_frames !! id with
  | Some sd => classify_scene texts sd = Py.Ok (out !! id)
  | None => out !! id = None
  end.
Proof.
  unfold classify_and_categorize_scenes. intros Hout.
  apply classify_items_inv in Hout as [Hin Hnot];
    [|apply NoDup_fst_map_to_list].
  destruct (scene_frames !! id) as [sd|] eqn:Hsd.
  - apply elem_of_map_to_list in Hsd.
    destruct (Hin id sd Hsd) as (r & Hr & Hlook). rewrite Hlook, Hr.
    by destruct r.
  - rewrite Hnot; [done|]. intros ([k sd] & -> & Hin')%list_elem_of_fmap.
    apply elem_of_map_to_list in Hin'. simpl in Hsd. congruence.
Qed.

Lemma classify_and_categorize_scenes_Ok scene_frames texts :
  (∀ id sd, scene_frames !! id = Some sd →
            ∃ r, classify_scene texts sd = Py.Ok r) →
  ∃ out, classify_and_categorize_scenes scene_frames texts = Py.Ok out.
Proof.
  intros Hall. apply classify_items_Ok. intros id sd Hin.
  apply elem_of_map_to_list in Hin. eauto.
Qed.

(** *** When a scene is skipped, stored, or fails *)

Lemma classify_scene_no_first_frame texts sd :
  SceneFrames.first_frame sd = None → classify_scene texts sd = Py.Ok None.
Proof. intros H. unfold classify_scene. by rewrite H. Qed.

Lemma classify_scene_none_scored texts sd :
  Forall (λ f, frame_logits texts f = None) (SceneFrames.frames sd) →
  classify_scene texts sd = Py.Ok None.
Proof.
  intros Hall. unfold classify_scene.
  destruct (SceneFrames.first_frame sd); [|done].
  destruct (score_frames texts (SceneFrames.frames sd)) as [s v] eqn:Hsv.
  assert (v = 0)%nat as ->; [|done].
  destruct (decide (0 < v)%nat) as [Hpos|]; [exfalso|lia].
  assert (0 < (score_frames texts (SceneFrames.frames sd)).2)%nat as H
    by by rewrite Hsv.
  apply score_frames_pos, Exists_exists in H as (g & Hin & [l Hl]).
  rewrite Forall_forall in Hall. by rewrite (Hall g Hin) in Hl.
Qed.

Lemma classify_scene_skips_failed_frames texts sd :
  classify_scene texts sd =
  classify_scene texts
    (SceneFrames.Make (SceneFrames.start_time sd) (SceneFrames.end_time sd)
       (filter (λ f, is_Some (frame_logits texts f)) (SceneFrames.frames sd))
       (SceneFrames.first_frame sd)).
Proof.
  unfold classify_scene, score_frames. simpl.
  by rewrite <- foldl_score_frame_filter.
Qed.

Lemma classify_scene_emits texts sd :
  (11 ≤ length texts)%nat →
  (∀ f l, frame_logits texts f = Some l → length texts ≤ length l)%nat →
  (0 < frames_scored texts sd)%nat →
  ∃ r, classify_scene texts sd = Py.Ok (Some r).
Proof.
  intros HM Hc Hsc. unfold classify_scene. unfold frames_scored in Hsc.
  destruct (SceneFrames.first_frame sd) as [ff|]; [|lia].
  pose proof (score_frames_length texts (SceneFrames.frames sd) Hc) as Hlen.
  destruct (score_frames texts (SceneFrames.frames sd)) as [s v].
  simpl in Hsc, Hlen. rewrite (proj2 (Nat.ltb_lt _ _) Hsc).
  pose proof (mean_scores_length s v) as Hlen'. rewrite Hlen in Hlen'.
  destruct (action_confidence_Ok (mean_scores s v)) as [a ->]; [lia|].
  destruct (context_confidence_Ok texts (mean_scores s v)) as [c ->]; [lia..|].
  destruct (best_description_index_Ok (mean_scores s v)) as (i & -> & Hi).
  { intros Hnil. rewrite Hnil in Hlen'. simpl in Hlen'. lia. }
  simpl. unfold Py.getitem.
  destruct (lookup_lt_is_Some_2 texts i) as [best ->]; [lia|].
  simpl. destruct (categorize a c). eauto.
Qed.

Lemma classify_scene_total texts sd :
  (11 ≤ length texts)%nat →
  (∀ f l, frame_logits texts f = Some l → length texts ≤ length l)%nat →
  ∃ r, classify_scene texts sd = Py.Ok r.
Proof.
  intros HM Hc.
  destruct (SceneFrames.first_frame sd) as [ff|] eqn:Hff;
    [|rewrite classify_scene_no_first_frame by done; eauto].
  destruct (decide (Exists (λ f, is_Some (frame_logits texts f))
                      (SceneFrames.frames sd))) as [Hsc|Hsc].
  - destruct (classify_scene_emits texts sd HM Hc) as [r ->]; [|eauto].
    unfold frames_scored. rewrite Hff. by apply score_frames_pos.
  - rewrite classify_scene_none_scored; [eauto|].
    apply not_Exists_Forall in Hsc; [|intros f; apply _].
    eapply Forall_impl; [exact Hsc|]. simpl. intros f Hf.
    destruct (frame_logits texts f); [|done]. exfalso. apply Hf. eauto.
Qed.

(** C1 (amended): with a vocabulary of at least 11 phrases and a model that
    returns a logit for every phrase, the classifier returns normally (no
    division by zero, no index out of range), and every scene in which at
    least one frame is scored has a record in the result. *)
Theorem classification_completes scene_frames texts :
  (11 ≤ length texts)%nat →
  (∀ f l, frame_logits texts f = Some l → length texts ≤ length l)%nat →
  ∃ out,
    classify_and_categorize_scenes scene_frames texts = Py.Ok out ∧
    ∀ id sd,
      scene_frames !! id = Some sd →
      (0 < frames_scored texts sd)%nat →
      is_Some (out !! id).
Proof.
  intros HM Hc.
  destruct (classify_and_categorize_scenes_Ok scene_frames texts) as [out Hout].
  { intros id sd _. by apply classify_scene_total. }
  exists out. split; [done|]. intros id sd Hsd Hsc.
  pose proof (classify_lookup _ _ _ id Hout) as Hl. rewrite Hsd in Hl.
  destruct (classify_scene_emits texts sd HM Hc Hsc) as [r Hr].
  rewrite Hr in Hl. injection Hl as Hl. rewrite <- Hl. eauto.
Qed.

(** C4: in the mapping that the classifier returns, a scene with no valid
    first frame is absent, a scene in which no frame is scored is absent,
    and a scene with a valid first frame and at least one scored frame is
    present whatever its other frames did; frames whose processing fails
    leave the outcome of their scene unchanged. *)
Theorem dropped_and_kept_scenes scene_frames texts out id sd :
  classify_and_categorize_scenes scene_frames texts = Py.Ok out →
  scene_frames !! id = Some sd →
  (SceneFrames.first_frame sd = None → out !! id = None) ∧
  (Forall (λ f, frame_logits texts f = None) (SceneFrames.frames sd) →
   out !! id = None) ∧
  (is_Some (SceneFrames.first_frame sd) →
   Exists (λ f, is_Some (frame_logits texts f)) (SceneFrames.frames sd) →
   is_Some (out !! id)) ∧
  classify_scene texts sd =
  classify_scene texts
    (SceneFrames.Make (SceneFrames.start_time sd) (SceneFrames.end_time sd)
       (filter (λ f, is_Some (frame_logits texts f)) (SceneFrames.frames sd))
       (SceneFrames.first_frame sd)).
Proof.
  intros Hout Hsd.
  pose proof (classify_lookup _ _ _ id Hout) as Hl. rewrite Hsd in Hl.
  split; [|split; [|split]].
  - intros Hff. rewrite classify_scene_no_first_frame in Hl by done.
    by injection Hl.
  - intros Hall. rewrite classify_scene_none_scored in Hl by done.
    by injection Hl.
  - intros [ff Hff] Hsc. apply score_frames_pos in Hsc.
    revert Hl. unfold classify_scene. rewrite Hff.
    destruct (score_frames texts (SceneFrames.frames sd)) as [s v].
    simpl in Hsc. rewrite (proj2 (Nat.ltb_lt _ _) Hsc).
    destruct (action_confidence (mean_scores s v)); [|done].
    destruct (context_confidence texts (mean_scores s v)); [|done].
    destruct (best_description_index (mean_scores s v)); [|done].
    simpl. destruct (Py.getitem texts _); [|done].
    simpl. destruct (categorize _ _). intros [= <-]. eauto.
  - apply classify_scene_skips_failed_frames.
Qed.

(** *** Softmax and the range of the mean scores *)

Section Softmax.

(** The one property of the exponential that the results below rest on. *)
Hypothesis exp_pos : ∀ x, (0 < exp x)%Q.

Lemma softmax_unit_interval (logits : list Q) :
  Forall unit_interval (softmax exp logits).
Proof.
  unfold softmax. rewrite Forall_fmap, Forall_forall. intros x Hx. simpl.
  assert (exp x <= Py.sum (exp <$> logits))%Q as Hle.
  { rewrite sum_foldr. apply foldr_Qplus_ge.
    - rewrite Forall_fmap, Forall_forall. intros y _. simpl.
      apply Qlt_le_weak, exp_pos.
    - apply list_elem_of_fmap. eauto. }
  pose proof (exp_pos x) as Hpos.
  assert (0 < Py.sum (exp <$> logits))%Q as Hz by (by eapply Qlt_le_trans).
  split.
  - apply Qle_shift_div_l; [done|]. rewrite Qmult_0_l. by apply Qlt_le_weak.
  - apply Qle_shift_div_r; [done|]. by rewrite Qmult_1_l.
Qed.

Lemma softmax_sum (logits : list Q) :
  logits ≠ [] → (Py.sum (softmax exp logits) == 1)%Q.
Proof.
  intros Hne. unfold softmax.
  assert (0 < Py.sum (exp <$> logits))%Q as Hz.
  { destruct logits as [|x logits]; [done|].
    eapply Qlt_le_trans; [apply (exp_pos x)|].
    rewrite sum_foldr. apply foldr_Qplus_ge.
    - rewrite Forall_fmap, Forall_forall. intros y _. simpl.
      apply Qlt_le_weak, exp_pos.
    - rewrite fmap_cons. apply list_elem_of_here. }
  set (z := Py.sum (exp <$> logits)) in *.
  rewrite sum_foldr.
  assert (foldr Qplus 0 ((λ x, exp x / z) <$> logits)
          == foldr Qplus 0 (exp <$> logits) / z)%Q as ->.
  { clearbody z. clear. induction logits as [|x l IH].
    - simpl. unfold Qdiv. ring.
    - rewrite !fmap_cons. cbn [foldr]. rewrite IH. unfold Qdiv. ring. }
  rewrite <- sum_foldr. fold z. field. intros Hz0. rewrite Hz0 in Hz.
  by apply Qlt_irrefl in Hz.
Qed.

Lemma foldl_score_frame_bounds texts frames st :
  Forall (λ x, 0 <= x ∧ x <= inject_Z (Z.of_nat st.2))%Q st.1 →
  Forall (λ x, 0 <= x ∧
               x <= inject_Z (Z.of_nat (foldl (score_frame texts) st frames).2))%Q
    (foldl (score_frame texts) st frames).1.
Proof.
  revert st. induction frames as [|f frames IH]; intros st Hst; simpl; [done|].
  apply IH. unfold score_frame, frame_probs.
  destruct (frame_logits texts f) as [l|]; simpl; [|done].
  apply (Forall_zip_with_both _ _ _ _ _ _ Hst (softmax_unit_interval l)).
  intros x p [Hx0 Hxv] [Hp0 Hp1].
  rewrite Nat2Z.inj_succ, <- Z.add_1_r, inject_Z_plus.
  change (inject_Z 1) with 1%Q. split; lra.
Qed.

Lemma scene_mean_scores_unit_interval texts sd :
  (0 < (score_frames texts (SceneFrames.frames sd)).2)%nat →
  Forall unit_interval (scene_mean_scores texts sd).
Proof.
  intros Hv. unfold scene_mean_scores, mean_scores. rewrite Forall_fmap.
  eapply Forall_impl.
  - unfold score_frames. apply foldl_score_frame_bounds. simpl.
    apply Forall_replicate. split; apply Qle_refl.
  - fold (score_frames texts (SceneFrames.frames sd)).
    set (v := (score_frames texts (SceneFrames.frames sd)).2) in *.
    simpl. intros x [Hx0 Hxv].
    assert (0 < inject_Z (Z.of_nat v))%Q as Hpos.
    { change 0%Q with (inject_Z 0). rewrite <- Zlt_Qlt. lia. }
    split.
    + apply Qle_shift_div_l; [done|]. by rewrite Qmult_0_l.
    + apply Qle_shift_div_r; [done|]. by rewrite Qmult_1_l.
Qed.

(** C7: every frame that is scored contributes a softmax vector whose
    entries are nonnegative and sum to 1; hence the mean score vector of
    every emitted scene has one entry per phrase, each between 0 and 1. *)
Theorem scores_are_probabilities :
  (∀ texts f probs,
     frame_probs texts f = Some probs → probs ≠ [] →
     Forall (λ p, 0 <= p)%Q probs ∧ (Py.sum probs == 1)%Q) ∧
  (∀ texts sd r,
     classify_scene texts sd = Py.Ok (Some r) →
     length (scene_mean_scores texts sd) = length texts ∧
     Forall unit_interval (scene_mean_scores texts sd)).
Proof.
  split.
  - intros texts f probs Hp Hne. unfold frame_probs in Hp.
    destruct (frame_logits texts f) as [l|]; [|done].
    injection Hp as <-. split.
    + eapply Forall_impl; [apply softmax_unit_interval|]. by intros p [? _].
    + apply softmax_sum. intros ->. by apply Hne.
  - intros texts sd r Hr.
    split; [by eapply emitted_scores_length|].
    apply classify_scene_inv in Hr as (_ & _ & _ & _ & _ & _ & Hv & _).
    by apply scene_mean_scores_unit_interval.
Qed.

End Softmax.

End ClassifierFacts.

(** ** The frame extractor *)

Section ExtractionFacts.

Context {Frame Timecode Cap : Type}.
Variable get_frames : Timecode → nat.
Variable cap_set_pos : nat → Cap → Cap.
Variable cap_get_pos : Cap → nat.
Variable cap_read : Cap → option Frame * Cap.

Local Abbreviation read_scene := (read_scene cap_get_pos cap_read).
Local Abbreviation read_results := (read_results cap_read).
Local Abbreviation extract_scenes :=
  (@extract_scenes Frame Timecode Cap get_frames cap_set_pos cap_get_pos
     cap_read).
Local Abbreviation extract_frames :=
  (@extract_frames Frame Timecode Cap get_frames cap_set_pos cap_get_pos
     cap_read).

(** The loop keeps [first_frame] equal to the head of [frames]. *)
Lemma read_scene_first_frame fuel end_frame cap frames first_frame
    cap' frames' first_frame' :
  read_scene fuel end_frame cap frames first_frame
    = Some (cap', frames', first_frame') →
  first_frame = head frames → first_frame' = head frames'.
Proof.
  revert cap frames first_frame.
  induction fuel as [|fuel IH]; intros cap frames first_frame; simpl.
  - destruct (cap_get_pos cap <? end_frame)%nat; [done|]. by intros [= <- <- <-].
  - destruct (cap_get_pos cap <? end_frame)%nat; [|by intros [= <- <- <-]].
    destruct (cap_read cap) as [[frame|] cap1]; intros Hrun Hinv.
    + apply (IH _ _ _ Hrun). rewrite Hinv. by destruct frames.
    + by apply (IH _ _ _ Hrun).
Qed.

Lemma read_results_Some n cap frame cap1 :
  cap_read cap = (Some frame, cap1) →
  omap id (read_results (S n) cap) = frame :: omap id (read_results n cap1).
Proof. intros Hread. simpl. by rewrite Hread. Qed.

Lemma read_results_None n cap cap1 :
  cap_read cap = (None, cap1) →
  omap id (read_results (S n) cap) = omap id (read_results n cap1).
Proof. intros Hread. simpl. by rewrite Hread. Qed.

(** The loop only appends to [frames]: what it adds are the frames of the
    reads that succeed, in order. *)
Lemma read_scene_collects fuel end_frame cap frames first_frame
    cap' frames' first_frame' :
  read_scene fuel end_frame cap frames first_frame
    = Some (cap', frames', first_frame') →
  ∃ n, (n ≤ fuel)%nat ∧
       frames' = frames ++ omap id (read_results n cap) ∧
       (end_frame ≤ cap_get_pos cap')%nat.
Proof.
  revert cap frames first_frame.
  induction fuel as [|fuel IH]; intros cap frames first_frame; simpl.
  - destruct (cap_get_pos cap <? end_frame)%nat eqn:Hpos; [done|].
    intros [= <- <- <-]. exists 0%nat. simpl. rewrite app_nil_r.
    apply Nat.ltb_ge in Hpos. done.
  - destruct (cap_get_pos cap <? end_frame)%nat eqn:Hpos.
    + destruct (cap_read cap) as [[frame|] cap1] eqn:Hread; intros Hrun;
        destruct (IH _ _ _ Hrun) as (n & Hn & -> & Hend);
        exists (S n); (split; [lia|]); (split; [|done]).
      * by rewrite (read_results_Some _ _ _ _ Hread), <- app_assoc.
      * by rewrite (read_results_None _ _ _ Hread).
    + intros [= <- <- <-]. exists 0%nat. simpl. rewrite app_nil_r.
      apply Nat.ltb_ge in Hpos. split; [lia|done].
Qed.

(** A decoder that stays where it is when a read fails keeps the loop
    running for ever: no amount of fuel lets it return. *)
Lemma read_scene_stalls fuel end_frame cap frames first_frame :
  cap_read cap = (None, cap) → (cap_get_pos cap < end_frame)%nat →
  read_scene fuel end_frame cap frames first_frame = None.
Proof.
  intros Hread Hpos. apply Nat.ltb_lt in Hpos.
  induction fuel as [|fuel IH]; simpl; rewrite Hpos; [done|].
  by rewrite Hread.
Qed.

(** With a decoder that moves forward on every read, fuel for the frames
    left in the interval is enough for the loop to return. *)
Lemma read_scene_runs fuel end_frame cap frames first_frame :
  (∀ c, cap_get_pos c < cap_get_pos (cap_read c).2)%nat →
  (end_frame - cap_get_pos cap ≤ fuel)%nat →
  ∃ n cap' first_frame',
    read_scene fuel end_frame cap frames first_frame
      = Some (cap', frames ++ omap id (read_results n cap), first_frame') ∧
    (end_frame ≤ cap_get_pos cap')%nat ∧
    (n ≤ end_frame - cap_get_pos cap)%nat ∧
    (length (omap id (read_results n cap))
       ≤ end_frame - cap_get_pos cap)%nat.
Proof.
  intros Hprogress. revert cap frames first_frame.
  induction fuel as [|fuel IH]; intros cap frames first_frame Hfuel.
  - exists 0%nat, cap, first_frame. simpl.
    rewrite (proj2 (Nat.ltb_ge _ _)) by lia. rewrite app_nil_r.
    repeat split; lia.
  - simpl. destruct (cap_get_pos cap <? end_frame)%nat eqn:Hpos.
    + apply Nat.ltb_lt in Hpos. pose proof (Hprogress cap) as Hstep.
      destruct (cap_read cap) as [ret cap1] eqn:Hread. simpl in Hstep.
      destruct ret as [frame|].
      * destruct (IH cap1 (frames ++ [frame])
                    (match first_frame with
                     | Some _ => first_frame
                     | None => Some frame
                     end)) as (n & cap' & ff' & Hrun & Hend & Hn & Hlen); [lia|].
        exists (S n), cap', ff'. rewrite (read_results_Some _ _ _ _ Hread).
        rewrite Hrun, <- app_assoc. simpl. repeat split; [done|lia..].
      * destruct (IH cap1 frames first_frame)
          as (n & cap' & ff' & Hrun & Hend & Hn & Hlen); [lia|].
        exists (S n), cap', ff'. rewrite (read_results_None _ _ _ Hread).
        rewrite Hrun. repeat split; [done|lia..].
    + apply Nat.ltb_ge in Hpos. exists 0%nat, cap, first_frame. simpl.
      rewrite app_nil_r. repeat split; lia.
Qed.



Lemma extract_scenes_Some fuel i scene_list cap acc :
  (∀ c, cap_get_pos c < cap_get_pos (cap_read c).2)%nat →
  Forall (λ scene, get_frames scene.2 ≤ fuel)%nat scene_list →
  is_Some (extract_scenes fuel i scene_list cap acc).
Proof.
  intros Hprogress Hfuel. revert i cap acc.
  induction Hfuel as [|[start_time end_time] scene_list Hend _ IH];
    intros i cap acc; simpl; [eauto|].
  simpl in Hend.
  destruct (read_scene_runs fuel (get_frames end_time)
              (cap_set_pos (get_frames start_time) cap) [] None Hprogress)
    as (n & cap' & ff' & -> & _); [lia|].
  simpl. apply IH.
Qed.

Lemma extract_scenes_keys fuel i scene_list cap acc scene_frames :
  extract_scenes fuel i scene_list cap acc = Some scene_frames →
  ∀ j, is_Some (scene_frames !! j) ↔
       is_Some (acc !! j) ∨ (i ≤ j < i + length scene_list)%nat.
Proof.
  revert i cap acc.
  induction scene_list as [|[start_time end_time] scene_list IH];
    intros i cap acc; simpl.
  { intros [= <-] j. split; [eauto|]. intros [?|?]; [done|lia]. }
  destruct (read_scene fuel (get_frames end_time)
              (cap_set_pos (get_frames start_time) cap) [] None)
    as [[[cap' frames] first_frame]|]; [|done].
  simpl. intros Hrest j. rewrite (IH _ _ _ Hrest j), lookup_insert_is_Some.
  destruct (decide (i = j)) as [->|Hne]; [split; intros _; [right|left]|].
  - lia.
  - by left.
  - split.
    + intros [[?|[_ ?]]|?]; [done|by left|right; lia].
    + intros [?|?]; [left; right; done|right; lia].
Qed.

(** With a decoder that moves forward on every read and fuel for the
    longest interval, [extract_frames] returns a bundle for every scene
    index and for no other key. *)
Lemma extract_frames_returns fuel cap scene_list :
  (∀ c, cap_get_pos c < cap_get_pos (cap_read c).2)%nat →
  Forall (λ scene, get_frames scene.2 ≤ fuel)%nat scene_list →
  ∃ scene_frames,
    extract_frames fuel cap scene_list = Some scene_frames ∧
    ∀ j, is_Some (scene_frames !! j) ↔ (j < length scene_list)%nat.
Proof.
  intros Hprogress Hfuel.
  destruct (extract_scenes_Some fuel 0 scene_list cap ∅ Hprogress Hfuel)
    as [scene_frames Hrun].
  exists scene_frames. split; [done|]. intros j.
  rewrite (extract_scenes_keys _ _ _ _ _ _ Hrun j), lookup_empty.
  split.
  - intros [[? ?]|?]; [done|lia].
  - intros ?. right. lia.
Qed.

Lemma extract_scenes_first_frame fuel i scene_list cap acc scene_frames :
  extract_scenes fuel i scene_list cap acc = Some scene_frames →
  map_Forall (λ _ b, SceneFrames.first_frame b = head (SceneFrames.frames b))
    acc →
  map_Forall (λ _ b, SceneFrames.first_frame b = head (SceneFrames.frames b))
    scene_frames.
Proof.
  revert i cap acc.
  induction scene_list as [|[start_time end_time] scene_list IH];
    intros i cap acc; simpl.
  { by intros [= <-]. }
  destruct (read_scene fuel (get_frames end_time)
              (cap_set_pos (get_frames start_time) cap) [] None)
    as [[[cap' frames] first_frame]|] eqn:Hrun; [|done].
  simpl. intros Hrest Hacc. apply (IH _ _ _ Hrest).
  apply map_Forall_insert_2; [|done]. simpl.
  by apply (read_scene_first_frame _ _ _ _ _ _ _ _ Hrun).
Qed.

(** C9: in every bundle that [extract_frames] produces, the first frame is
    the first element of the frame sequence when that sequence is not
    empty, and is null when no frame could be read. *)
Theorem first_frame_is_head_of_frames fuel cap scene_list scene_frames i b :
  extract_frames fuel cap scene_list = Some scene_frames →
  scene_frames !! i = Some b →
  (∀ frame rest,
     SceneFrames.frames b = frame :: rest →
     SceneFrames.first_frame b = Some frame) ∧
  (SceneFrames.frames b = [] → SceneFrames.first_frame b = None).
Proof.
  intros Hrun Hb.
  assert (SceneFrames.first_frame b = head (SceneFrames.frames b)) as Hinv.
  { apply (extract_scenes_first_frame _ _ _ _ _ _ Hrun) in Hb; [done|].
    apply map_Forall_empty. }
  split.
  - intros frame rest Hfr. by rewrite Hinv, Hfr.
  - intros Hfr. by rewrite Hinv, Hfr.
Qed.

End ExtractionFacts.

(** ** The timestamp parser *)

(** C6: [convert_timestamp_to_seconds] maps "0:01:30" to 90.0 and
    "1:00:00.5" to 3600.5 (the rational 7201/2). *)
Theorem convert_timestamp_examples :
  Timestamp.convert_timestamp_to_seconds "0:01:30" = Py.Ok 90%Q ∧
  Timestamp.convert_timestamp_to_seconds "1:00:00.5" = Py.Ok (7201 # 2)%Q ∧
  (7201 # 2 == 36005 # 10)%Q.
Proof. split; [|split]; vm_compute; reflexivity. Qed.

(** ** The sample run *)

Lemma demo_exp_pos (x : Q) : (0 < Demo.exp x)%Q.
Proof.
  unfold Demo.exp.
  assert (0 <= 2 ^ Qfloor x)%Q as [?|Heq]%Qle_lteq by by apply Qpower_0_le.
  - done.
  - symmetry in Heq. by apply Qpower_not_0 in Heq.
Qed.

Lemma demo_frame_logits_length texts f l :
  Demo.frame_logits texts f = Some l → (length texts ≤ length l)%nat.
Proof.
  unfold Demo.frame_logits.
  destruct (Nat.eqb_spec (length f) (length texts)); [|done].
  intros [= <-]. lia.
Qed.

Lemma demo_cap_read_progress (c : Demo.Cap) :
  (Demo.cap_get_pos c < Demo.cap_get_pos (Demo.cap_read c).2)%nat.
Proof. destruct c as [slots pos]. simpl. unfold Demo.cap_get_pos. simpl. lia. Qed.

(** With ten phrases the context subset is empty: the one frame of the scene
    is scored, and line 108 then divides by zero. *)
Lemma ten_phrases_divide_by_zero :
  (10 ≤ length Demo.phrases10)%nat ∧
  (0 < Demo.frames_scored Demo.phrases10 Demo.scene10)%nat ∧
  Demo.classify_and_categorize_scenes {[0%nat := Demo.scene10]} Demo.phrases10
    = Py.Raise Py.ZeroDivisionError.
Proof.
  split; [simpl; lia|]. split.
  - vm_compute. lia.
  - vm_compute. reflexivity.
Qed.

Lemma classification_completes_witness :
  ∃ out,
    Demo.classify_and_categorize_scenes Demo.scene_frames Demo.phrases
      = Py.Ok out ∧
    ∀ id sd,
      Demo.scene_frames !! id = Some sd →
      (0 < Demo.frames_scored Demo.phrases sd)%nat →
      is_Some (out !! id).
Proof.
  apply (classification_completes Demo.get_seconds Demo.timecode_str
           Demo.frame_logits Demo.exp Demo.scene_frames Demo.phrases).
  - simpl. lia.
  - apply demo_frame_logits_length.
Defined.

Lemma category_follows_strict_comparison_witness :
  ∃ a c,
    action_confidence (Demo.scene_mean_scores Demo.phrases Demo.scene3)
      = Py.Ok a ∧
    context_confidence Demo.phrases
      (Demo.scene_mean_scores Demo.phrases Demo.scene3) = Py.Ok c ∧
    ((SceneCategory.category Demo.record3 = "Action Scene" ∧
      SceneCategory.confidence Demo.record3 = a) ↔ (c < a)%Q) ∧
    (¬ (c < a)%Q →
     SceneCategory.category Demo.record3 = "Context Scene" ∧
     SceneCategory.confidence Demo.record3 = c) ∧
    ((a == c)%Q →
     SceneCategory.category Demo.record3 = "Context Scene" ∧
     SceneCategory.confidence Demo.record3 = c).
Proof.
  apply (category_follows_strict_comparison Demo.get_seconds Demo.timecode_str
           Demo.frame_logits Demo.exp Demo.phrases Demo.scene3 Demo.record3).
  vm_compute. reflexivity.
Defined.

Lemma confidence_is_max_of_partition_witness :
  ∃ a c,
    action_confidence (Demo.scene_mean_scores Demo.phrases Demo.scene0)
      = Py.Ok a ∧
    context_confidence Demo.phrases
      (Demo.scene_mean_scores Demo.phrases Demo.scene0) = Py.Ok c ∧
    (SceneCategory.confidence Demo.record0 == Qmax a c)%Q ∧
    (a <= SceneCategory.confidence Demo.record0)%Q ∧
    (c <= SceneCategory.confidence Demo.record0)%Q.
Proof.
  apply (confidence_is_max_of_partition Demo.get_seconds Demo.timecode_str
           Demo.frame_logits Demo.exp Demo.phrases Demo.scene0 Demo.record0).
  vm_compute. reflexivity.
Defined.

Lemma confidences_are_partition_means_witness :
  ∃ a c,
    action_confidence (Demo.scene_mean_scores Demo.phrases Demo.scene0)
      = Py.Ok a ∧
    context_confidence Demo.phrases
      (Demo.scene_mean_scores Demo.phrases Demo.scene0) = Py.Ok c ∧
    length (Demo.scene_mean_scores Demo.phrases Demo.scene0)
      = length Demo.phrases ∧
    (a == arithmetic_mean
            (take 10 (Demo.scene_mean_scores Demo.phrases Demo.scene0)))%Q ∧
    length (take 10 (Demo.scene_mean_scores Demo.phrases Demo.scene0))
      = 10%nat ∧
    (c == arithmetic_mean
            (drop 10 (Demo.scene_mean_scores Demo.phrases Demo.scene0)))%Q ∧
    length (drop 10 (Demo.scene_mean_scores Demo.phrases Demo.scene0))
      = (length Demo.phrases - 10)%nat.
Proof.
  apply (confidences_are_partition_means Demo.get_seconds Demo.timecode_str
           Demo.frame_logits Demo.exp Demo.phrases Demo.scene0 Demo.record0).
  vm_compute. reflexivity.
Defined.

Lemma best_description_is_first_maximum_witness :
  ∃ i x,
    best_description_index (Demo.scene_mean_scores Demo.phrases Demo.scene3)
      = Py.Ok i ∧
    Demo.phrases !! i = Some (SceneCategory.best_description Demo.record3) ∧
    Demo.scene_mean_scores Demo.phrases Demo.scene3 !! i = Some x ∧
    (∀ j y, Demo.scene_mean_scores Demo.phrases Demo.scene3 !! j = Some y →
            (y <= x)%Q) ∧
    (∀ j y, (j < i)%nat →
            Demo.scene_mean_scores Demo.phrases Demo.scene3 !! j = Some y →
            (y < x)%Q).
Proof.
  apply (best_description_is_first_maximum Demo.get_seconds Demo.timecode_str
           Demo.frame_logits Demo.exp Demo.phrases Demo.scene3 Demo.record3).
  vm_compute. reflexivity.
Defined.

Lemma dropped_and_kept_scenes_witness :
  (SceneFrames.first_frame Demo.scene0 = None →
   Demo.scene_categories !! 0%nat = None) ∧
  (Forall (λ f, Demo.frame_logits Demo.phrases f = None)
     (SceneFrames.frames Demo.scene0) →
   Demo.scene_categories !! 0%nat = None) ∧
  (is_Some (SceneFrames.first_frame Demo.scene0) →
   Exists (λ f, is_Some (Demo.frame_logits Demo.phrases f))
     (SceneFrames.frames Demo.scene0) →
   is_Some (Demo.scene_categories !! 0%nat)) ∧
  Demo.classify_scene Demo.phrases Demo.scene0 =
  Demo.classify_scene Demo.phrases
    (SceneFrames.Make (SceneFrames.start_time Demo.scene0)
       (SceneFrames.end_time Demo.scene0)
       (filter (λ f, is_Some (Demo.frame_logits Demo.phrases f))
          (SceneFrames.frames Demo.scene0))
       (SceneFrames.first_frame Demo.scene0)).
Proof.
  apply (dropped_and_kept_scenes Demo.get_seconds Demo.timecode_str
           Demo.frame_logits Demo.exp Demo.scene_frames Demo.phrases
           Demo.scene_categories 0%nat Demo.scene0).
  - vm_compute. reflexivity.
  - vm_compute. reflexivity.
Defined.

Lemma scores_are_probabilities_witness :
  (∀ probs,
     frame_probs Demo.frame_logits Demo.exp Demo.phrases Demo.action_frame
       = Some probs →
     Forall (λ p, 0 <= p)%Q probs ∧ (Py.sum probs == 1)%Q) ∧
  (length (Demo.scene_mean_scores Demo.phrases Demo.scene0)
     = length Demo.phrases ∧
   Forall unit_interval (Demo.scene_mean_scores Demo.phrases Demo.scene0)).
Proof.
  destruct (scores_are_probabilities Demo.get_seconds Demo.timecode_str
              Demo.frame_logits Demo.exp demo_exp_pos) as [Hframe Hscene].
  split.
  - intros probs Hprobs. apply (Hframe _ _ _ Hprobs).
    vm_compute in Hprobs. injection Hprobs as <-. done.
  - apply (Hscene Demo.phrases Demo.scene0 Demo.record0).
    vm_compute. reflexivity.
Defined.


Lemma first_frame_is_head_of_frames_witness :
  (∀ frame rest,
     SceneFrames.frames Demo.scene0 = frame :: rest →
     SceneFrames.first_frame Demo.scene0 = Some frame) ∧
  (SceneFrames.frames Demo.scene0 = [] →
   SceneFrames.first_frame Demo.scene0 = None).
Proof.
  apply (first_frame_is_head_of_frames Demo.get_frames Demo.cap_set_pos
           Demo.cap_get_pos Demo.cap_read 7 (Demo.video, 0%nat)
           Demo.scene_list Demo.scene_frames 0%nat Demo.scene0).
  - vm_compute. reflexivity.
  - vm_compute. reflexivity.
Defined.

(** * Further properties of the code *)

(** ** The classifier: failures, provenance and ranges *)

Section ClassifierMore.

Context {Frame Timecode : Type}.
Variable get_seconds : Timecode → Q.
Variable timecode_str : Timecode → string.
Variable frame_logits : list string → Frame → option (list Q).
Variable exp : Q → Q.

Local Abbreviation score_frames := (score_frames frame_logits exp).
Local Abbreviation scene_mean_scores :=
  (@scene_mean_scores Frame Timecode frame_logits exp).
Local Abbreviation frames_scored :=
  (@frames_scored Frame Timecode frame_logits exp).
Local Abbreviation classify_scene :=
  (classify_scene get_seconds timecode_str frame_logits exp).
Local Abbreviation classify_item :=
  (classify_item get_seconds timecode_str frame_logits exp).
Local Abbreviation classify_and_categorize_scenes :=
  (classify_and_categorize_scenes get_seconds timecode_str frame_logits exp).

Lemma sum_at_out_of_range (acc : Q) (l : list Q) (idxs : list nat) :
  Exists (λ i, length l ≤ i)%nat idxs →
  Py.sum_at acc l idxs = Py.Raise Py.IndexError.
Proof.
  intros Hex. revert acc.
  induction Hex as [i idxs Hi|i idxs _ IH]; intros acc; simpl.
  - unfold Py.getitem. by rewrite (proj2 (lookup_ge_None l i) Hi).
  - unfold Py.getitem. destruct (l !! i); simpl; [apply IH|done].
Qed.

Lemma action_confidence_short (scene_scores : list Q) :
  (length scene_scores < 10)%nat →
  action_confidence scene_scores = Py.Raise Py.IndexError.
Proof.
  intros Hlen. unfold action_confidence. rewrite sum_at_out_of_range; [done|].
  unfold action_indices. apply Exists_exists. exists 9%nat.
  split; [set_solver|lia].
Qed.

Lemma context_confidence_no_context (texts : list string)
    (scene_scores : list Q) :
  length texts = 10%nat →
  context_confidence texts scene_scores = Py.Raise Py.ZeroDivisionError.
Proof.
  intros HM. unfold context_confidence.
  assert (context_indices texts = []) as ->; [|done].
  apply Permutation_nil_r. rewrite context_indices_perm, HM. done.
Qed.

(** What a scene does once one of its frames is scored, by vocabulary
    size. *)
Lemma classify_scene_scored_cases texts sd :
  (0 < frames_scored texts sd)%nat →
  ∃ ff, SceneFrames.first_frame sd = Some ff ∧
    classify_scene texts sd =
      (a ← action_confidence (scene_mean_scores texts sd);
       c ← context_confidence texts (scene_mean_scores texts sd);
       i ← best_description_index (scene_mean_scores texts sd);
       best ← Py.getitem texts i;
       Py.Ok (Some (SceneCategory.Make (categorize a c).1 (categorize a c).2
                      (timecode_str (SceneFrames.start_time sd))
                      (timecode_str (SceneFrames.end_time sd))
                      (get_seconds (SceneFrames.end_time sd)
                       - get_seconds (SceneFrames.start_time sd))%Q
                      ff best))).
Proof.
  unfold frames_scored, classify_scene, scene_mean_scores.
  destruct (SceneFrames.first_frame sd) as [ff|]; [|lia].
  intros Hv. exists ff. split; [done|].
  destruct (score_frames texts (SceneFrames.frames sd)) as [s v].
  simpl in *. rewrite (proj2 (Nat.ltb_lt _ _) Hv).
  destruct (action_confidence (mean_scores s v)) as [a|]; [|done].
  destruct (context_confidence texts (mean_scores s v)) as [c|]; [|done].
  destruct (best_description_index (mean_scores s v)) as [i|]; [|done].
  simpl. destruct (Py.getitem texts i); [|done].
  simpl. by destruct (categorize a c).
Qed.

Lemma classify_scene_not_scored texts sd :
  frames_scored texts sd = 0%nat → classify_scene texts sd = Py.Ok None.
Proof.
  unfold frames_scored, classify_scene.
  destruct (SceneFrames.first_frame sd); [|done].
  destruct (score_frames texts (SceneFrames.frames sd)) as [s v].
  simpl. by intros ->.
Qed.

Lemma classify_scene_raise_scored texts sd e :
  classify_scene texts sd = Py.Raise e → (0 < frames_scored texts sd)%nat.
Proof.
  intros Hr. destruct (frames_scored texts sd) eqn:Hv; [|lia].
  by rewrite classify_scene_not_scored in Hr.
Qed.

Lemma classify_items_raise texts items acc e :
  (∃ id sd, (id, sd) ∈ items ∧ classify_scene texts sd = Py.Raise e) →
  (∀ id sd e', (id, sd) ∈ items →
               classify_scene texts sd = Py.Raise e' → e' = e) →
  foldl (classify_item texts) (Py.Ok acc) items = Py.Raise e.
Proof.
  revert acc. induction items as [|[k sd] items IH]; intros acc Hex Hall.
  { destruct Hex as (? & ? & Hin & _). by apply elem_of_nil in Hin. }
  simpl. destruct (classify_scene texts sd) as [r|e'] eqn:Hr; simpl.
  - apply IH.
    + destruct Hex as (id & sd' & Hin & Hraise).
      apply elem_of_cons in Hin as [[= -> ->]|Hin]; [congruence|eauto].
    + intros id sd' e'' Hin. apply (Hall id). by apply list_elem_of_further.
  - rewrite (Hall k sd e'); [|apply list_elem_of_here|done].
    apply foldl_classify_item_raise.
Qed.

Lemma classify_and_categorize_scenes_raise scene_frames texts id sd e :
  scene_frames !! id = Some sd →
  classify_scene texts sd = Py.Raise e →
  (∀ id' sd' e', scene_frames !! id' = Some sd' →
                 classify_scene texts sd' = Py.Raise e' → e' = e) →
  classify_and_categorize_scenes scene_frames texts = Py.Raise e.
Proof.
  intros Hsd Hraise Hall. apply classify_items_raise.
  - exists id, sd. split; [by apply elem_of_map_to_list|done].
  - intros id' sd' e' Hin. apply (Hall id' sd' e').
    by apply elem_of_map_to_list.
Qed.

Lemma scene_mean_scores_length_le texts sd :
  (length (scene_mean_scores texts sd) ≤ length texts)%nat.
Proof.
  unfold scene_mean_scores. rewrite mean_scores_length.
  apply score_frames_length_le.
Qed.

Lemma classify_scene_short_vocabulary texts sd :
  (length texts < 10)%nat → (0 < frames_scored texts sd)%nat →
  classify_scene texts sd = Py.Raise Py.IndexError.
Proof.
  intros HM Hv. destruct (classify_scene_scored_cases texts sd Hv) as (ff & _ & ->).
  rewrite action_confidence_short; [done|].
  pose proof (scene_mean_scores_length_le texts sd). lia.
Qed.

(** X1: with fewer than 10 phrases, as soon as one scene of the input has a
    scored frame the classifier raises IndexError, and nothing is returned
    for any scene. *)
Theorem short_vocabulary_raises_index_error scene_frames texts id sd :
  (length texts < 10)%nat →
  scene_frames !! id = Some sd →
  (0 < frames_scored texts sd)%nat →
  classify_and_categorize_scenes scene_frames texts
    = Py.Raise Py.IndexError.
Proof.
  intros HM Hsd Hv.
  apply (classify_and_categorize_scenes_raise _ _ id sd); [done|..].
  - by apply classify_scene_short_vocabulary.
  - intros id' sd' e' _ Hraise.
    rewrite classify_scene_short_vocabulary in Hraise;
      [congruence|done|by eapply classify_scene_raise_scored].
Qed.

Lemma classify_scene_ten_phrases texts sd :
  length texts = 10%nat →
  (∀ f l, frame_logits texts f = Some l → length texts ≤ length l)%nat →
  (0 < frames_scored texts sd)%nat →
  classify_scene texts sd = Py.Raise Py.ZeroDivisionError.
Proof.
  intros HM Hc Hv.
  destruct (classify_scene_scored_cases texts sd Hv) as (ff & _ & ->).
  destruct (action_confidence_Ok (scene_mean_scores texts sd)) as [a ->].
  { unfold scene_mean_scores.
    rewrite mean_scores_length, (score_frames_length _ _ _ _ Hc). lia. }
  simpl. by rewrite context_confidence_no_context.
Qed.

(** X2: with exactly 10 phrases and a model that returns a logit for every
    phrase, as soon as one scene has a scored frame the classifier raises
    ZeroDivisionError, and nothing is returned for any scene. *)
Theorem ten_phrases_raise_zero_division scene_frames texts id sd :
  length texts = 10%nat →
  (∀ f l, frame_logits texts f = Some l → length texts ≤ length l)%nat →
  scene_frames !! id = Some sd →
  (0 < frames_scored texts sd)%nat →
  classify_and_categorize_scenes scene_frames texts
    = Py.Raise Py.ZeroDivisionError.
Proof.
  intros HM Hc Hsd Hv.
  apply (classify_and_categorize_scenes_raise _ _ id sd); [done|..].
  - by apply classify_scene_ten_phrases.
  - intros id' sd' e' _ Hraise.
    rewrite classify_scene_ten_phrases in Hraise;
      [congruence|done..|by eapply classify_scene_raise_scored].
Qed.

Lemma classify_items_nothing texts items acc :
  (∀ id sd, (id, sd) ∈ items → classify_scene texts sd = Py.Ok None) →
  foldl (classify_item texts) (Py.Ok acc) items = Py.Ok acc.
Proof.
  induction items as [|[k sd] items IH]; intros Hall; simpl; [done|].
  rewrite (Hall k sd) by apply list_elem_of_here. simpl. apply IH.
  intros id sd' Hin. apply (Hall id sd'). by apply list_elem_of_further.
Qed.

(** X3: when no frame of any scene is scored, the classifier returns the
    empty mapping, whatever the size of the vocabulary; with 10 phrases or
    fewer this is the only way it returns at all. *)
Theorem nothing_scored_gives_empty_result scene_frames texts :
  ((∀ id sd, scene_frames !! id = Some sd → frames_scored texts sd = 0%nat) →
   classify_and_categorize_scenes scene_frames texts = Py.Ok ∅) ∧
  ((length texts ≤ 10)%nat →
   ∀ out, classify_and_categorize_scenes scene_frames texts = Py.Ok out →
          out = ∅ ∧
          ∀ id sd, scene_frames !! id = Some sd →
                   frames_scored texts sd = 0%nat).
Proof.
  assert ((∀ id sd, scene_frames !! id = Some sd →
                    frames_scored texts sd = 0%nat) →
          classify_and_categorize_scenes scene_frames texts = Py.Ok ∅) as Hnone.
  { intros Hall. apply classify_items_nothing. intros id sd Hin.
    apply classify_scene_not_scored, (Hall id). by apply elem_of_map_to_list. }
  split; [done|]. intros HM out Hout.
  assert (∀ id sd, scene_frames !! id = Some sd →
                   frames_scored texts sd = 0%nat) as Hall.
  { intros id sd Hsd. pose proof (classify_lookup _ _ _ _ _ _ _ id Hout) as Hl.
    rewrite Hsd in Hl. destruct (frames_scored texts sd) eqn:Hv; [done|].
    exfalso.
    destruct (classify_scene_scored_cases texts sd) as (ff & _ & Heq); [lia|].
    rewrite Heq in Hl. clear Heq.
    destruct (action_confidence (scene_mean_scores texts sd)) as [a|] eqn:Ha;
      [|done].
    destruct (context_confidence texts (scene_mean_scores texts sd))
      as [c|] eqn:Hc; [|done].
    apply context_confidence_inv in Hc as (? & _). lia. }
  split; [|done]. rewrite (Hnone Hall) in Hout. by injection Hout.
Qed.

(** X4: every record of the result belongs to a scene of the input with the
    same index: it carries that scene's first frame and time codes, its
    duration is the difference of the scene's end and start seconds, its
    category is one of the two labels, its best description is a phrase of
    the vocabulary, and the scene had at least one scored frame. *)
Theorem records_come_from_their_scenes scene_frames texts out id r :
  classify_and_categorize_scenes scene_frames texts = Py.Ok out →
  out !! id = Some r →
  ∃ sd,
    scene_frames !! id = Some sd ∧
    SceneFrames.first_frame sd = Some (SceneCategory.first_frame r) ∧
    SceneCategory.start_time r = timecode_str (SceneFrames.start_time sd) ∧
    SceneCategory.end_time r = timecode_str (SceneFrames.end_time sd) ∧
    SceneCategory.duration r =
      (get_seconds (SceneFrames.end_time sd)
       - get_seconds (SceneFrames.start_time sd))%Q ∧
    (SceneCategory.category r = "Action Scene" ∨
     SceneCategory.category r = "Context Scene") ∧
    SceneCategory.best_description r ∈ texts ∧
    (0 < frames_scored texts sd)%nat.
Proof.
  intros Hout Hr. pose proof (classify_lookup _ _ _ _ _ _ _ id Hout) as Hl.
  destruct (scene_frames !! id) as [sd|]; [|congruence].
  exists sd. split; [done|]. rewrite Hr in Hl.
  apply classify_scene_inv in Hl
    as (ff & a & c & i & best & Hff & Hv & _ & _ & _ & Hbest & ->).
  simpl. repeat split; try done.
  - unfold categorize. destruct (Py.gt a c); simpl; auto.
  - by eapply list_elem_of_lookup_2.
  - unfold frames_scored. by rewrite Hff.
Qed.

End ClassifierMore.

Section ClassifierRanges.

Context {Frame Timecode : Type}.
Variable get_seconds : Timecode → Q.
Variable timecode_str : Timecode → string.
Variable frame_logits : list string → Frame → option (list Q).
Variable exp : Q → Q.
Hypothesis exp_pos : ∀ x, (0 < exp x)%Q.

Local Abbreviation score_frame := (score_frame frame_logits exp).
Local Abbreviation score_frames := (score_frames frame_logits exp).
Local Abbreviation scene_mean_scores :=
  (@scene_mean_scores Frame Timecode frame_logits exp).
Local Abbreviation classify_scene :=
  (classify_scene get_seconds timecode_str frame_logits exp).

Lemma arithmetic_mean_unit_interval (l : list Q) :
  l ≠ [] → Forall unit_interval l → unit_interval (arithmetic_mean l).
Proof.
  intros Hne Hall. unfold arithmetic_mean.
  assert (0 <= foldr Qplus 0 l
          ∧ foldr Qplus 0 l <= inject_Z (Z.of_nat (length l)))%Q as [H0 Hn].
  { clear Hne. induction Hall as [|x l [Hx0 Hx1] _ [IH0 IHn]].
    - simpl. split; apply Qle_refl.
    - cbn [foldr length]. rewrite Nat2Z.inj_succ, <- Z.add_1_r, inject_Z_plus.
      change (inject_Z 1) with 1%Q. split; lra. }
  assert (0 < inject_Z (Z.of_nat (length l)))%Q as Hpos.
  { change 0%Q with (inject_Z 0). rewrite <- Zlt_Qlt.
    destruct l; [done|]. simpl. lia. }
  split.
  - apply Qle_shift_div_l; [done|]. by rewrite Qmult_0_l.
  - apply Qle_shift_div_r; [done|]. by rewrite Qmult_1_l.
Qed.

(** X5: for every emitted record, the action confidence, the context
    confidence and the reported confidence all lie between 0 and 1. *)
Theorem confidence_in_unit_interval texts sd r :
  classify_scene texts sd = Py.Ok (Some r) →
  ∃ a c,
    action_confidence (scene_mean_scores texts sd) = Py.Ok a ∧
    context_confidence texts (scene_mean_scores texts sd) = Py.Ok c ∧
    unit_interval a ∧ unit_interval c ∧
    unit_interval (SceneCategory.confidence r).
Proof.
  intros Hr. pose proof (emitted_scores_length _ _ _ _ _ _ _ Hr) as Hlen.
  apply classify_scene_inv in Hr
    as (ff & a & c & i & best & _ & Hv & Ha & Hc & _ & _ & ->).
  pose proof (scene_mean_scores_unit_interval frame_logits exp exp_pos
                texts sd Hv) as Hunit.
  destruct (action_confidence_inv _ _ Ha) as [Hten Hmean_a].
  destruct (context_confidence_inv _ _ _ Hc) as (HM & Hge & Hmean_c).
  rewrite take_ge in Hmean_c by (rewrite length_drop; lia).
  assert (unit_interval a) as Hua.
  { unfold unit_interval. rewrite Hmean_a.
    apply arithmetic_mean_unit_interval; [|by apply Forall_take].
    intros Hnil. apply (f_equal length) in Hnil.
    rewrite length_take, Nat.min_l in Hnil by done. discriminate Hnil. }
  assert (unit_interval c) as Huc.
  { unfold unit_interval. rewrite Hmean_c.
    apply arithmetic_mean_unit_interval; [|by apply Forall_drop].
    intros Hnil. apply (f_equal length) in Hnil.
    rewrite length_drop, Hlen in Hnil. cbn [length] in Hnil. lia. }
  exists a, c. repeat split; try done; simpl;
    unfold categorize; destruct (Py.gt a c); simpl;
    first [apply Hua|apply Huc].
Qed.

Lemma foldr_Qplus_zip_with (l k : list Q) :
  length l = length k →
  (foldr Qplus 0 (zip_with Qplus l k)
   == foldr Qplus 0 l + foldr Qplus 0 k)%Q.
Proof.
  revert k. induction l as [|x l IH]; intros [|y k] Hlen; simplify_eq/=.
  - ring.
  - rewrite IH by done. ring.
Qed.

Lemma foldl_score_frame_total texts frames st :
  (∀ f l, frame_logits texts f = Some l → length l = length st.1) →
  st.1 ≠ [] →
  (foldr Qplus 0 st.1 == inject_Z (Z.of_nat st.2))%Q →
  (foldr Qplus 0 (foldl (score_frame texts) st frames).1
   == inject_Z (Z.of_nat (foldl (score_frame texts) st frames).2))%Q.
Proof.
  revert st. induction frames as [|f frames IH]; intros st Hc Hne Hst; simpl;
    [done|].
  unfold score_frame at 2 4, frame_probs.
  destruct (frame_logits texts f) as [l|] eqn:Hl; simpl; [|by apply IH].
  pose proof (Hc f l Hl) as Hlen.
  assert (length (zip_with Qplus st.1 (softmax exp l)) = length st.1) as Hz.
  { rewrite length_zip_with, softmax_length. lia. }
  apply IH; simpl.
  - intros f' l' Hl'. rewrite Hz. eauto.
  - intros Hnil. rewrite Hnil in Hz. destruct st.1; simpl in *; congruence.
  - rewrite foldr_Qplus_zip_with by (by rewrite softmax_length).
    rewrite Hst, <- sum_foldr, (softmax_sum exp exp_pos).
    + rewrite Nat2Z.inj_succ, <- Z.add_1_r, inject_Z_plus. reflexivity.
    + intros ->. destruct st.1; simpl in *; congruence.
Qed.

Lemma foldr_Qplus_app (l k : list Q) :
  (foldr Qplus 0 (l ++ k) == foldr Qplus 0 l + foldr Qplus 0 k)%Q.
Proof.
  induction l as [|x l IH].
  - simpl. ring.
  - rewrite <- app_comm_cons. cbn [foldr]. rewrite IH. ring.
Qed.

(** X6: when the model returns exactly one logit per phrase, the mean
    scores of an emitted scene sum to 1, so the two confidences are tied to
    each other: 10 times the action confidence plus (M - 10) times the
    context confidence is 1. *)
Theorem weighted_confidences_sum_to_one texts sd r :
  (∀ f l, frame_logits texts f = Some l → length l = length texts) →
  classify_scene texts sd = Py.Ok (Some r) →
  ∃ a c,
    action_confidence (scene_mean_scores texts sd) = Py.Ok a ∧
    context_confidence texts (scene_mean_scores texts sd) = Py.Ok c ∧
    (Py.sum (scene_mean_scores texts sd) == 1)%Q ∧
    (10 * a + inject_Z (Z.of_nat (length texts - 10)) * c == 1)%Q.
Proof.
  intros Hcontract Hr.
  pose proof (emitted_scores_length _ _ _ _ _ _ _ Hr) as Hlen.
  apply classify_scene_inv in Hr
    as (ff & a & c & i & best & _ & Hv & Ha & Hc & _ & _ & _).
  destruct (action_confidence_inv _ _ Ha) as [Hten Hmean_a].
  destruct (context_confidence_inv _ _ _ Hc) as (HM & Hge & Hmean_c).
  rewrite take_ge in Hmean_c by (rewrite length_drop; lia).
  exists a, c. split; [done|]. split; [done|].
  assert (foldr Qplus 0 (scene_mean_scores texts sd) == 1)%Q as Hsum.
  { unfold scene_mean_scores, mean_scores.
    set (st := score_frames texts (SceneFrames.frames sd)) in *.
    assert (foldr Qplus 0 st.1 == inject_Z (Z.of_nat st.2))%Q as Htotal.
    { unfold st, score_frames. apply foldl_score_frame_total; simpl.
      - intros f l Hl. rewrite length_replicate. eauto.
      - destruct texts; simpl in *; [lia|done].
      - clear. induction (length texts) as [|n IH]; simpl; [reflexivity|].
        rewrite IH. ring. }
    assert (0 < inject_Z (Z.of_nat st.2))%Q as Hpos.
    { change 0%Q with (inject_Z 0). rewrite <- Zlt_Qlt. lia. }
    revert Htotal Hpos. generalize (inject_Z (Z.of_nat st.2)). intros v.
    assert (∀ l : list Q,
              foldr Qplus 0 ((λ score, score / v) <$> l)
              == foldr Qplus 0 l / v)%Q as ->.
    { induction l as [|x l IH].
      - simpl. unfold Qdiv. ring.
      - rewrite fmap_cons. cbn [foldr]. rewrite IH. unfold Qdiv. ring. }
    intros -> Hpos. field. intros H0. rewrite H0 in Hpos.
    by apply Qlt_irrefl in Hpos. }
  split; [by rewrite sum_foldr|].
  rewrite <- (take_drop 10 (scene_mean_scores texts sd)), foldr_Qplus_app in Hsum.
  rewrite Hmean_a, Hmean_c. unfold arithmetic_mean.
  rewrite length_take, length_drop, Nat.min_l, Hlen by done.
  rewrite <- Hsum. field.
  change 0%Q with (inject_Z 0). rewrite inject_Z_injective. lia.
Qed.

End ClassifierRanges.

(** ** The frame extractor: keys, provenance and stalls *)

Section ExtractionMore.

Context {Frame Timecode Cap : Type}.
Variable get_frames : Timecode → nat.
Variable cap_set_pos : nat → Cap → Cap.
Variable cap_get_pos : Cap → nat.
Variable cap_read : Cap → option Frame * Cap.

Local Abbreviation read_scene := (read_scene cap_get_pos cap_read).
Local Abbreviation read_results := (read_results cap_read).
Local Abbreviation cap_after := (cap_after cap_read).
Local Abbreviation extract_scenes :=
  (@extract_scenes Frame Timecode Cap get_frames cap_set_pos cap_get_pos
     cap_read).
Local Abbreviation extract_frames :=
  (@extract_frames Frame Timecode Cap get_frames cap_set_pos cap_get_pos
     cap_read).

(** X7: with a decoder that moves forward on every read and fuel for the
    longest interval, [extract_frames] returns, and its keys are exactly the
    positions 0 .. n-1 of the scene list: every detected scene gets a
    bundle, even one in which nothing decodes. *)
Theorem extraction_returns_every_scene fuel cap scene_list :
  (∀ c, cap_get_pos c < cap_get_pos (cap_read c).2)%nat →
  Forall (λ scene, get_frames scene.2 ≤ fuel)%nat scene_list →
  ∃ scene_frames,
    extract_frames fuel cap scene_list = Some scene_frames ∧
    ∀ j, is_Some (scene_frames !! j) ↔ (j < length scene_list)%nat.
Proof. apply extract_frames_returns. Qed.

(** Every bundle of the result is what the loop produced for the scene at
    its index, started from the decoder sought to that scene's start. *)
Lemma extract_scenes_bundles fuel i scene_list cap acc scene_frames j b :
  extract_scenes fuel i scene_list cap acc = Some scene_frames →
  scene_frames !! j = Some b →
  (acc !! j = Some b ∧ ¬ (i ≤ j < i + length scene_list)%nat) ∨
  ((i ≤ j)%nat ∧
   scene_list !! (j - i)%nat
     = Some (SceneFrames.start_time b, SceneFrames.end_time b) ∧
   ∃ cap_before cap_after,
     read_scene fuel (get_frames (SceneFrames.end_time b))
       (cap_set_pos (get_frames (SceneFrames.start_time b)) cap_before)
       [] None
     = Some (cap_after, SceneFrames.frames b, SceneFrames.first_frame b)).
Proof.
  revert i cap acc.
  induction scene_list as [|[start_time end_time] scene_list IH];
    intros i cap acc; simpl.
  { intros [= <-] Hb. left. split; [done|lia]. }
  destruct (read_scene fuel (get_frames end_time)
              (cap_set_pos (get_frames start_time) cap) [] None)
    as [[[cap' frames] first_frame]|] eqn:Hrun; [|done].
  simpl. intros Hrest Hb.
  destruct (IH _ _ _ Hrest Hb) as [[Hacc Hout]|(Hle & Hsl & Hloop)].
  - destruct (decide (i = j)) as [->|Hne].
    + rewrite lookup_insert_eq in Hacc. injection Hacc as <-. right.
      split; [done|]. rewrite Nat.sub_diag. simpl. split; [done|]. eauto.
    + rewrite lookup_insert_ne in Hacc by done. left. split; [done|]. lia.
  - right. split; [lia|]. split; [|done].
    replace (j - i)%nat with (S (j - S i)) by lia. done.
Qed.

Lemma read_scene_positions fuel end_frame cap frames first_frame
    cap' frames' first_frame' :
  read_scene fuel end_frame cap frames first_frame
    = Some (cap', frames', first_frame') →
  ∃ n, cap' = cap_after n cap ∧
       frames' = frames ++ omap id (read_results n cap) ∧
       (end_frame ≤ cap_get_pos cap')%nat.
Proof.
  revert cap frames first_frame.
  induction fuel as [|fuel IH]; intros cap frames first_frame; simpl.
  - destruct (cap_get_pos cap <? end_frame)%nat eqn:Hpos; [done|].
    intros [= <- <- <-]. exists 0%nat. simpl. rewrite app_nil_r.
    apply Nat.ltb_ge in Hpos. done.
  - destruct (cap_get_pos cap <? end_frame)%nat eqn:Hpos.
    + destruct (cap_read cap) as [[frame|] cap1] eqn:Hread; intros Hrun;
        destruct (IH _ _ _ Hrun) as (n & -> & -> & Hend);
        exists (S n); simpl; rewrite Hread; simpl; (split; [done|]);
        (split; [|done]).
      * by rewrite <- app_assoc.
      * done.
    + intros [= <- <- <-]. exists 0%nat. simpl. rewrite app_nil_r.
      apply Nat.ltb_ge in Hpos. done.
Qed.

(** X8: every bundle returned by [extract_frames] sits at the index of its
    scene in the scene list and carries that scene's start and end time
    codes; its frames are the successful reads, in decoding order, of a run
    of reads begun after seeking to the scene's start frame, and that run
    ended with the decoder at or past the end frame. *)
Theorem bundles_follow_scene_list fuel cap scene_list scene_frames i b :
  extract_frames fuel cap scene_list = Some scene_frames →
  scene_frames !! i = Some b →
  scene_list !! i = Some (SceneFrames.start_time b, SceneFrames.end_time b) ∧
  ∃ cap_before n,
    SceneFrames.frames b =
      omap id (read_results n
                 (cap_set_pos (get_frames (SceneFrames.start_time b))
                    cap_before)) ∧
    (get_frames (SceneFrames.end_time b) ≤
     cap_get_pos
       (cap_after n
          (cap_set_pos (get_frames (SceneFrames.start_time b)) cap_before)))%nat.
Proof.
  intros Hrun Hb.
  destruct (extract_scenes_bundles _ _ _ _ _ _ _ _ Hrun Hb)
    as [[Hacc _]|(_ & Hsl & cap0 & cap1 & Hloop)].
  { by rewrite lookup_empty in Hacc. }
  rewrite Nat.sub_0_r in Hsl. split; [done|].
  destruct (read_scene_positions _ _ _ _ _ _ _ _ Hloop)
    as (n & -> & Hfr & Hend).
  exists cap0, n. done.
Qed.

(** X9: with a decoder whose position after a seek is the frame sought, a
    scene whose end frame is not after its start frame yields a bundle with
    no frames and a null first frame. *)
Theorem empty_interval_gives_empty_bundle fuel cap scene_list scene_frames i b :
  (∀ n c, cap_get_pos (cap_set_pos n c) = n) →
  extract_frames fuel cap scene_list = Some scene_frames →
  scene_frames !! i = Some b →
  (get_frames (SceneFrames.end_time b)
   ≤ get_frames (SceneFrames.start_time b))%nat →
  SceneFrames.frames b = [] ∧ SceneFrames.first_frame b = None.
Proof.
  intros Hseek Hrun Hb Hle.
  destruct (extract_scenes_bundles _ _ _ _ _ _ _ _ Hrun Hb)
    as [[Hacc _]|(_ & _ & cap0 & cap1 & Hloop)].
  { by rewrite lookup_empty in Hacc. }
  destruct fuel; simpl in Hloop; rewrite Hseek in Hloop;
    rewrite (proj2 (Nat.ltb_ge _ _) Hle) in Hloop;
    by injection Hloop as _ <- <-.
Qed.

Lemma read_scene_blocked n fuel end_frame cap frames first_frame :
  (∀ k, k ≤ n → cap_get_pos (cap_after k cap) < end_frame)%nat →
  cap_read (cap_after n cap) = (None, cap_after n cap) →
  read_scene fuel end_frame cap frames first_frame = None.
Proof.
  revert fuel cap frames first_frame.
  induction n as [|n IH]; intros fuel cap frames first_frame Hpos Hstall.
  { apply read_scene_stalls; [done|]. apply (Hpos 0%nat). lia. }
  pose proof (Hpos 0%nat ltac:(lia)) as Hnow. simpl in Hnow.
  apply Nat.ltb_lt in Hnow.
  destruct fuel as [|fuel]; simpl; rewrite Hnow; [done|].
  simpl in Hstall.
  assert (∀ k, k ≤ n → cap_get_pos (cap_after k (cap_read cap).2) < end_frame)%nat
    as Hpos' by (intros k Hk; apply (Hpos (S k)); lia).
  destruct (cap_read cap) as [[frame|] cap1]; simpl in *; by apply IH.
Qed.

(** X10: if, while reading the first scene, the decoder comes before the end
    frame to a state in which a read fails and leaves it where it is, then
    [extract_frames] never returns: no amount of fuel is enough. *)
Theorem stalled_decoder_blocks_extraction n fuel cap start_time end_time rest :
  (∀ k, k ≤ n →
        cap_get_pos (cap_after k (cap_set_pos (get_frames start_time) cap))
        < get_frames end_time)%nat →
  cap_read (cap_after n (cap_set_pos (get_frames start_time) cap))
    = (None, cap_after n (cap_set_pos (get_frames start_time) cap)) →
  extract_frames fuel cap ((start_time, end_time) :: rest) = None.
Proof.
  intros Hpos Hstall. unfold extract_frames. simpl.
  by rewrite (read_scene_blocked n).
Qed.

End ExtractionMore.

(** ** Extraction followed by classification *)

Section Pipeline.

Context {Frame Timecode Cap : Type}.
Variable get_frames : Timecode → nat.
Variable cap_set_pos : nat → Cap → Cap.
Variable cap_get_pos : Cap → nat.
Variable cap_read : Cap → option Frame * Cap.
Variable get_seconds : Timecode → Q.
Variable timecode_str : Timecode → string.
Variable frame_logits : list string → Frame → option (list Q).
Variable exp : Q → Q.

Local Abbreviation extract_frames :=
  (@extract_frames Frame Timecode Cap get_frames cap_set_pos cap_get_pos
     cap_read).
Local Abbreviation classify_and_categorize_scenes :=
  (classify_and_categorize_scenes get_seconds timecode_str frame_logits exp).

(** X11: when the classifier is run on what [extract_frames] returned, the
    first frame of every record is the first frame decoded in the scene of
    the same index, whose time codes are those of the scene list at that
    index; and a scene in which nothing decoded has no record. *)
Theorem pipeline_first_frames fuel cap scene_list texts scene_frames out :
  extract_frames fuel cap scene_list = Some scene_frames →
  classify_and_categorize_scenes scene_frames texts = Py.Ok out →
  (∀ i r, out !! i = Some r →
     ∃ b rest,
       scene_frames !! i = Some b ∧
       scene_list !! i
         = Some (SceneFrames.start_time b, SceneFrames.end_time b) ∧
       SceneFrames.frames b = SceneCategory.first_frame r :: rest) ∧
  (∀ i b, scene_frames !! i = Some b →
          SceneFrames.frames b = [] → out !! i = None).
Proof.
  intros Hrun Hout.
  assert (∀ i b, scene_frames !! i = Some b →
                 SceneFrames.first_frame b = head (SceneFrames.frames b))
    as Hhead.
  { intros i b Hb.
    apply (extract_scenes_first_frame _ _ _ _ _ _ _ _ _ _ Hrun) in Hb;
      [done|apply map_Forall_empty]. }
  split.
  - intros i r Hr.
    pose proof (classify_lookup _ _ _ _ _ _ _ i Hout) as Hl.
    destruct (scene_frames !! i) as [b|] eqn:Hb; [|congruence].
    rewrite Hr in Hl.
    apply classify_scene_inv in Hl as (ff & a & c & k & best & Hff & _ & _ & _ & _ & _ & ->).
    rewrite (Hhead i b Hb) in Hff. simpl.
    destruct (SceneFrames.frames b) as [|frame rest] eqn:Hfr; [done|].
    injection Hff as ->. exists b, rest. split; [done|]. split; [|done].
    destruct (extract_scenes_bundles _ _ _ _ _ _ _ _ _ _ _ _ Hrun Hb)
      as [[Hacc _]|(_ & Hsl & _)].
    + by rewrite lookup_empty in Hacc.
    + by rewrite Nat.sub_0_r in Hsl.
  - intros i b Hb Hfr.
    pose proof (classify_lookup _ _ _ _ _ _ _ i Hout) as Hl.
    rewrite Hb in Hl.
    rewrite classify_scene_no_first_frame in Hl; [by injection Hl|].
    by rewrite (Hhead i b Hb), Hfr.
Qed.

End Pipeline.

(** ** The timestamp parser: field count and digit fields *)

Lemma split_colon_length (s : string) :
  length (Timestamp.split_colon s) = S (count_colons s).
Proof.
  induction s as [|c s IH]; simpl; [done|].
  destruct (Timestamp.split_colon s) as [|p ps]; [done|].
  simpl in IH. destruct (Ascii.eqb c ":"); simpl; lia.
Qed.

(** X12: a timestamp that does not contain exactly two colons is rejected
    with ValueError, whatever else it contains. *)
Theorem timestamp_needs_two_colons (timestamp : string) :
  count_colons timestamp ≠ 2%nat →
  Timestamp.convert_timestamp_to_seconds timestamp = Py.Raise Py.ValueError.
Proof.
  intros Hcount. unfold Timestamp.convert_timestamp_to_seconds.
  pose proof (split_colon_length timestamp) as Hlen.
  destruct (Timestamp.split_colon timestamp) as [|h [|m [|s [|x rest]]]];
    simpl in Hlen; try done.
  lia.
Qed.

Lemma string_app_cons (c : ascii) (s t : string) :
  String c s +:+ t = String c (s +:+ t).
Proof. reflexivity. Qed.

Lemma string_app_nil (t : string) : EmptyString +:+ t = t.
Proof. reflexivity. Qed.

Lemma string_app_nil_r (s : string) : s +:+ EmptyString = s.
Proof.
  induction s as [|c s IH]; [done|]. by rewrite string_app_cons, IH.
Qed.

Lemma digit_char_cases (P : nat → Prop) :
  P 0%nat → P 1%nat → P 2%nat → P 3%nat → P 4%nat → P 5%nat → P 6%nat →
  P 7%nat → P 8%nat → P 9%nat → ∀ d, (d < 10)%nat → P d.
Proof.
  intros ?????????? d Hd.
  do 10 (destruct d as [|d]; [done|]). lia.
Qed.

Lemma digit_of_digit_char (d : nat) :
  (d < 10)%nat → Timestamp.digit (digit_char d) = Some (Z.of_nat d).
Proof. revert d. apply digit_char_cases; reflexivity. Qed.

Lemma digit_char_not_colon (d : nat) :
  (d < 10)%nat → Ascii.eqb (digit_char d) ":" = false.
Proof. revert d. apply digit_char_cases; reflexivity. Qed.

Lemma digit_char_not_point (d : nat) :
  (d < 10)%nat → Ascii.eqb (digit_char d) "." = false.
Proof. revert d. apply digit_char_cases; reflexivity. Qed.

Lemma float_starts_with_digit (d : nat) (s : string) :
  (d < 10)%nat →
  Timestamp.float (String (digit_char d) s) =
  match Timestamp.scan (String (digit_char d) s) 0 None false with
  | Some q => Py.Ok q
  | None => Py.Raise Py.ValueError
  end.
Proof. revert d. apply digit_char_cases; reflexivity. Qed.

Lemma count_colons_app (s t : string) :
  count_colons (s +:+ t) = (count_colons s + count_colons t)%nat.
Proof.
  induction s as [|c s IH]; [done|].
  rewrite string_app_cons. simpl. rewrite IH. lia.
Qed.

Lemma count_colons_digits (ds : list nat) :
  Forall (λ d, d < 10)%nat ds → count_colons (digits_string ds) = 0%nat.
Proof.
  induction 1 as [|d ds Hd _ IH]; cbn [digits_string count_colons]; [done|].
  by rewrite digit_char_not_colon, IH.
Qed.

Lemma split_colon_single (s : string) :
  count_colons s = 0%nat → Timestamp.split_colon s = [s].
Proof.
  induction s as [|c s IH]; simpl; [done|].
  destruct (Ascii.eqb c ":"); [done|]. simpl. intros H. by rewrite IH.
Qed.

Lemma split_colon_field (s t : string) :
  count_colons s = 0%nat →
  Timestamp.split_colon (s +:+ ":" +:+ t) = s :: Timestamp.split_colon t.
Proof.
  induction s as [|c s IH]; intros Hs.
  - rewrite string_app_nil, string_app_cons, string_app_nil. simpl.
    pose proof (split_colon_length t).
    by destruct (Timestamp.split_colon t).
  - rewrite string_app_cons. simpl in *.
    destruct (Ascii.eqb c ":"); [done|]. by rewrite IH.
Qed.

Lemma scan_digits (ds : list nat) (rest : string) (mant : Z)
    (frac : option nat) (any : bool) :
  Forall (λ d, d < 10)%nat ds →
  Timestamp.scan (digits_string ds +:+ rest) mant frac any =
  Timestamp.scan rest
    (foldl (λ acc d, 10 * acc + Z.of_nat d)%Z mant ds)
    ((λ k, k + length ds)%nat <$> frac)
    (match ds with [] => any | _ => true end).
Proof.
  intros Hds. revert mant frac any.
  induction Hds as [|d ds Hd _ IH]; intros mant frac any.
  - rewrite string_app_nil. simpl. f_equal. destruct frac; simpl; f_equal; lia.
  - cbn [digits_string]. rewrite string_app_cons. cbn [Timestamp.scan].
    rewrite digit_char_not_point, digit_of_digit_char by done. simpl.
    rewrite IH. f_equal.
    + destruct frac; simpl; f_equal; lia.
    + by destruct ds.
Qed.

Lemma scan_digits_end (ds : list nat) (mant : Z) (frac : option nat)
    (any : bool) :
  Forall (λ d, d < 10)%nat ds →
  Timestamp.scan (digits_string ds) mant frac any =
  Timestamp.scan EmptyString
    (foldl (λ acc d, 10 * acc + Z.of_nat d)%Z mant ds)
    ((λ k, k + length ds)%nat <$> frac)
    (match ds with [] => any | _ => true end).
Proof.
  intros Hds. rewrite <- scan_digits by done. by rewrite string_app_nil_r.
Qed.

Lemma foldl_digits_shift (ds : list nat) (mant : Z) :
  foldl (λ acc d, 10 * acc + Z.of_nat d)%Z mant ds
  = (mant * 10 ^ Z.of_nat (length ds) + digits_value ds)%Z.
Proof.
  unfold digits_value. revert mant.
  induction ds as [|d ds IH]; intros mant.
  - simpl. lia.
  - cbn [foldl length]. rewrite IH, (IH (10 * 0 + Z.of_nat d)%Z).
    rewrite Nat2Z.inj_succ, Z.pow_succ_r by lia. lia.
Qed.

Lemma int_of_integer (x : Q) (v : Z) :
  (x == inject_Z v)%Q → Timestamp.int x = v.
Proof.
  unfold Qeq, Timestamp.int. simpl. intros H. rewrite Z.mul_1_r in H.
  rewrite H. by apply Z.quot_mul.
Qed.

Lemma float_digits (ds : list nat) :
  Forall (λ d, d < 10)%nat ds → ds ≠ [] →
  ∃ q, Timestamp.float (digits_string ds) = Py.Ok q ∧
       (q == inject_Z (digits_value ds))%Q.
Proof.
  intros Hds Hne. destruct ds as [|d ds]; [done|].
  pose proof (Forall_inv Hds) as Hd.
  cbn [digits_string]. rewrite float_starts_with_digit by done.
  change (String (digit_char d) (digits_string ds))
    with (digits_string (d :: ds)).
  rewrite scan_digits_end by done.
  cbn [Timestamp.scan fmap option_fmap option_map default].
  eexists. split; [reflexivity|]. rewrite Qred_correct.
  change (inject_Z (10 ^ Z.of_nat 0)) with 1%Q.
  rewrite foldl_digits_shift. rewrite Z.mul_0_l, Z.add_0_l. field.
Qed.

Lemma float_digits_fraction (ds fs : list nat) :
  Forall (λ d, d < 10)%nat ds → Forall (λ d, d < 10)%nat fs → ds ≠ [] →
  ∃ q, Timestamp.float (digits_string ds +:+ "." +:+ digits_string fs)
         = Py.Ok q ∧
       (q == inject_Z (digits_value ds)
             + inject_Z (digits_value fs)
               / inject_Z (10 ^ Z.of_nat (length fs)))%Q.
Proof.
  intros Hds Hfs Hne. destruct ds as [|d ds]; [done|].
  pose proof (Forall_inv Hds) as Hd.
  cbn [digits_string]. rewrite string_app_cons.
  rewrite float_starts_with_digit by done.
  rewrite <- string_app_cons.
  change (String (digit_char d) (digits_string ds))
    with (digits_string (d :: ds)).
  rewrite scan_digits by done. rewrite string_app_cons, string_app_nil.
  cbn [Timestamp.scan fmap option_fmap option_map].
  change (Ascii.eqb "." ".") with true. cbv iota.
  rewrite scan_digits_end by done.
  cbn [Timestamp.scan fmap option_fmap option_map default].
  assert (match fs with [] => true | _ => true end = true) as ->
    by by destruct fs.
  eexists. split; [reflexivity|]. rewrite Qred_correct.
  rewrite !foldl_digits_shift, Z.mul_0_l, Z.add_0_l, Nat.add_0_l.
  rewrite inject_Z_plus, inject_Z_mult. unfold id. field.
  change 0%Q with (inject_Z 0). rewrite inject_Z_injective.
  apply Z.pow_nonzero; lia.
Qed.

(** The rational reading of the digit fields of a timestamp. *)
Lemma digit_fields_rational_reading (hs ms ss fs : list nat) :
  Forall (λ d, d < 10)%nat hs → Forall (λ d, d < 10)%nat ms →
  Forall (λ d, d < 10)%nat ss → Forall (λ d, d < 10)%nat fs →
  hs ≠ [] → ms ≠ [] → ss ≠ [] →
  (∃ v,
     Timestamp.convert_timestamp_to_seconds
       (digits_string hs +:+ ":" +:+ digits_string ms +:+ ":"
        +:+ digits_string ss) = Py.Ok v ∧
     (v == inject_Z (3600 * digits_value hs + 60 * digits_value ms
                     + digits_value ss))%Q) ∧
  (∃ w,
     Timestamp.convert_timestamp_to_seconds
       (digits_string hs +:+ ":" +:+ digits_string ms +:+ ":"
        +:+ digits_string ss +:+ "." +:+ digits_string fs) = Py.Ok w ∧
     (w == inject_Z (3600 * digits_value hs + 60 * digits_value ms
                     + digits_value ss)
           + inject_Z (digits_value fs)
             / inject_Z (10 ^ Z.of_nat (length fs)))%Q).
Proof.
  intros Hhs Hms Hss Hfs Hh Hm Hs.
  destruct (float_digits hs Hhs Hh) as (qh & Hfh & Hqh).
  destruct (float_digits ms Hms Hm) as (qm & Hfm & Hqm).
  destruct (float_digits ss Hss Hs) as (qs & Hfs' & Hqs).
  destruct (float_digits_fraction ss fs Hss Hfs Hs) as (qf & Hff & Hqf).
  unfold Timestamp.convert_timestamp_to_seconds.
  rewrite !split_colon_field by by apply count_colons_digits.
  split.
  - rewrite split_colon_single by by apply count_colons_digits.
    rewrite Hfh, Hfm, Hfs'. simpl. eexists. split; [reflexivity|].
    rewrite (int_of_integer _ _ Hqh), (int_of_integer _ _ Hqm), Hqs.
    rewrite !inject_Z_plus, !inject_Z_mult. ring.
  - rewrite split_colon_single.
    + rewrite Hfh, Hfm, Hff. simpl. eexists. split; [reflexivity|].
      rewrite (int_of_integer _ _ Hqh), (int_of_integer _ _ Hqm), Hqf.
      rewrite !inject_Z_plus, !inject_Z_mult. ring.
    + rewrite !count_colons_app, !count_colons_digits by done. done.
Qed.

(** X13: for a timestamp of non-empty digit fields H:M:S or H:M:S.F whose
    value 3600 H + 60 M + S + F / 10^|F| a double holds exactly, the
    result is that value; the hours and minutes are not limited to a range
    such as 0..59. *)
Theorem timestamp_of_digit_fields (hs ms ss fs : list nat) :
  Forall (λ d, d < 10)%nat hs → Forall (λ d, d < 10)%nat ms →
  Forall (λ d, d < 10)%nat ss → Forall (λ d, d < 10)%nat fs →
  hs ≠ [] → ms ≠ [] → ss ≠ [] →
  binary64_exact
    (inject_Z (3600 * digits_value hs + 60 * digits_value ms
               + digits_value ss)
     + inject_Z (digits_value fs) / inject_Z (10 ^ Z.of_nat (length fs)))%Q →
  (∃ v,
     Timestamp.convert_timestamp_to_seconds
       (digits_string hs +:+ ":" +:+ digits_string ms +:+ ":"
        +:+ digits_string ss) = Py.Ok v ∧
     (v == inject_Z (3600 * digits_value hs + 60 * digits_value ms
                     + digits_value ss))%Q) ∧
  (∃ w,
     Timestamp.convert_timestamp_to_seconds
       (digits_string hs +:+ ":" +:+ digits_string ms +:+ ":"
        +:+ digits_string ss +:+ "." +:+ digits_string fs) = Py.Ok w ∧
     (w == inject_Z (3600 * digits_value hs + 60 * digits_value ms
                     + digits_value ss)
           + inject_Z (digits_value fs)
             / inject_Z (10 ^ Z.of_nat (length fs)))%Q).
Proof.
  intros Hhs Hms Hss Hfs Hh Hm Hs _.
  by apply digit_fields_rational_reading.
Qed.

(** ** The caption layout *)

(** X14: the caption is centred: the margin right of the text exceeds the
    margin left of it by 0 or 1 pixel, and the margin below the text
    exceeds the margin above it by 0 or 1 pixel, for every frame and text
    size. *)
Theorem caption_is_centred (frame_width frame_height text_width text_height : Z) :
  let left := Caption.text_x frame_width text_width in
  let right := (frame_width - (left + text_width))%Z in
  let top := (Caption.text_y frame_height text_height - text_height)%Z in
  let bottom := (frame_height - Caption.text_y frame_height text_height)%Z in
  (0 ≤ right - left ≤ 1)%Z ∧ (0 ≤ bottom - top ≤ 1)%Z.
Proof.
  unfold Caption.text_x, Caption.text_y. simpl.
  Z.to_euclidean_division_equations. lia.
Qed.

(** X15: [cv2.rectangle] fills the pixels from one corner to the other,
    both corners included.  The corners are text_width columns and
    text_height + 20 rows apart, the upper one 10 rows above the top of the
    text and the lower one 10 rows below its baseline; for a text of
    non-negative size, every pixel of the rectangle is a pixel of the frame
    exactly when the text is narrower than the frame and more than 20
    pixels lower than the frame is high. *)
Theorem backdrop_fits_the_frame (frame_width frame_height text_width text_height : Z) :
  (0 ≤ text_width)%Z → (0 ≤ text_height)%Z →
  let '((x0, y0), (x1, y1)) :=
    Caption.rectangle frame_width frame_height text_width text_height in
  (x1 - x0 = text_width)%Z ∧ (y1 - y0 = text_height + 20)%Z ∧
  (y0 = Caption.text_y frame_height text_height - text_height - 10)%Z ∧
  (y1 = Caption.text_y frame_height text_height + 10)%Z ∧
  ((∀ x y, (x0 ≤ x ≤ x1)%Z → (y0 ≤ y ≤ y1)%Z →
           (0 ≤ x < frame_width)%Z ∧ (0 ≤ y < frame_height)%Z) ↔
   (text_width < frame_width ∧ text_height + 20 < frame_height)%Z).
Proof.
  intros Hw Hh. unfold Caption.rectangle, Caption.text_x, Caption.text_y.
  simpl. repeat (split; [lia|]). split.
  - intros Hall.
    pose proof (Hall ((frame_width - text_width) / 2)%Z
                  ((frame_height + text_height) / 2 - text_height - 10)%Z
                  ltac:(lia) ltac:(lia)) as Hupper.
    pose proof (Hall ((frame_width - text_width) / 2 + text_width)%Z
                  ((frame_height + text_height) / 2 + 10)%Z
                  ltac:(lia) ltac:(lia)) as Hlower.
    revert Hupper Hlower. Z.to_euclidean_division_equations. lia.
  - intros Hfit x y. Z.to_euclidean_division_equations. lia.
Qed.

(** ** The clip file name *)

Lemma chars_app (s t : string) : chars (s +:+ t) = chars s ++ chars t.
Proof.
  induction s as [|c s IH]; [done|].
  rewrite string_app_cons. simpl. by rewrite IH.
Qed.

Lemma chars_inj (s t : string) : chars s = chars t → s = t.
Proof.
  revert t. induction s as [|c s IH]; intros [|d t] H; simplify_eq/=; [done|].
  f_equal. by apply IH.
Qed.

Lemma string_app_inv_tail (s1 s2 t : string) :
  s1 +:+ t = s2 +:+ t → s1 = s2.
Proof.
  intros H. apply chars_inj. apply (f_equal chars) in H.
  rewrite !chars_app in H. by apply app_inv_tail in H.
Qed.

Lemma output_filename_action (scene_id : nat) :
  Clip.output_filename scene_id "Action Scene"
  = "scene_" +:+ pretty (scene_id + 1)%nat +:+ "_Action_Scene.mp4".
Proof. reflexivity. Qed.

Lemma output_filename_context (scene_id : nat) :
  Clip.output_filename scene_id "Context Scene"
  = "scene_" +:+ pretty (scene_id + 1)%nat +:+ "_Context_Scene.mp4".
Proof. reflexivity. Qed.

Lemma action_context_names_differ (s t : string) :
  s +:+ "_Action_Scene.mp4" ≠ t +:+ "_Context_Scene.mp4".
Proof.
  intros H. apply (f_equal (λ x, rev (chars x) !! 10%nat)) in H.
  rewrite !chars_app, !rev_app_distr in H. simpl in H. discriminate H.
Qed.

(** X16: the clips of the classifier's two categories never share a file
    name: two names are equal only for the same scene index and the same
    category, so saving one scene cannot overwrite the clip of another. *)
Theorem clip_names_do_not_collide (i j : nat) (c d : string) :
  c = "Action Scene" ∨ c = "Context Scene" →
  d = "Action Scene" ∨ d = "Context Scene" →
  Clip.output_filename i c = Clip.output_filename j d →
  i = j ∧ c = d.
Proof.
  assert (∀ (a b : nat) (suffix : string),
            "scene_" +:+ pretty (a + 1)%nat +:+ suffix
            = "scene_" +:+ pretty (b + 1)%nat +:+ suffix → a = b) as Hsame.
  { intros a b suffix H. apply (inj (String.app "scene_")) in H.
    apply string_app_inv_tail in H. apply (inj pretty) in H. lia. }
  intros [-> | ->] [-> | ->];
    rewrite ?output_filename_action, ?output_filename_context; intros H.
  - split; [by eapply Hsame|done].
  - apply (inj (String.app "scene_")) in H.
    by apply action_context_names_differ in H.
  - apply (inj (String.app "scene_")) in H. symmetry in H.
    by apply action_context_names_differ in H.
  - split; [by eapply Hsame|done].
Qed.

Lemma pretty_N_char_no_space (n : N) : pretty_N_char n ≠ " "%char.
Proof.
  destruct n as [|p]; [done|].
  do 4 (try (destruct p as [p|p|]; try done)).
Qed.

Lemma pretty_N_go_no_space (x : N) (s : string) :
  " "%char ∉ chars s → " "%char ∉ chars (pretty_N_go x s).
Proof.
  revert s. induction (N.lt_wf_0 x) as [x _ IH]; intros s Hs.
  assert (x = 0 ∨ 0 < x)%N as [->|Hx] by lia.
  - by rewrite pretty_N_go_0.
  - rewrite pretty_N_go_step by done. apply IH.
    + by apply N.div_lt.
    + simpl. rewrite not_elem_of_cons. split; [|done].
      intros H. by apply (pretty_N_char_no_space (x `mod` 10)%N).
Qed.

Lemma replace_space_no_space (s : string) :
  " "%char ∉ chars (Clip.replace_space s).
Proof.
  induction s as [|c s IH]; simpl; [apply not_elem_of_nil|].
  rewrite not_elem_of_cons. split; [|done].
  destruct (Ascii.eqb_spec c " "); [done|congruence].
Qed.

Ltac literal_has_no_space :=
  let Hin := fresh "Hin" in
  simpl; intros Hin;
  repeat (apply elem_of_cons in Hin as [Hin|Hin]; [discriminate Hin|]);
  by apply elem_of_nil in Hin.

(** X17: the clip file name contains no space, whatever the category text
    and the scene index. *)
Theorem clip_name_has_no_space (scene_id : nat) (category : string) :
  " "%char ∉ chars (Clip.output_filename scene_id category).
Proof.
  unfold Clip.output_filename. rewrite !chars_app, !not_elem_of_app.
  split; [|split; [|split; [|split]]].
  - literal_has_no_space.
  - unfold pretty, pretty_nat, pretty, pretty_N. case_decide.
    + literal_has_no_space.
    + apply pretty_N_go_no_space. apply not_elem_of_nil.
  - literal_has_no_space.
  - apply replace_space_no_space.
  - literal_has_no_space.
Qed.

(** ** The sample run, continued *)

Lemma demo_frame_logits_exact texts f l :
  Demo.frame_logits texts f = Some l → length l = length texts.
Proof.
  unfold Demo.frame_logits.
  destruct (Nat.eqb_spec (length f) (length texts)); [|done].
  by intros [= <-].
Qed.

Lemma short_vocabulary_raises_index_error_witness :
  Demo.classify_and_categorize_scenes {[0%nat := Demo.scene9]} Demo.phrases9
    = Py.Raise Py.IndexError.
Proof.
  apply (short_vocabulary_raises_index_error Demo.get_seconds
           Demo.timecode_str Demo.frame_logits Demo.exp
           {[0%nat := Demo.scene9]} Demo.phrases9 0%nat Demo.scene9).
  - simpl. lia.
  - vm_compute. reflexivity.
  - vm_compute. lia.
Defined.

Lemma ten_phrases_raise_zero_division_witness :
  Demo.classify_and_categorize_scenes {[0%nat := Demo.scene10]} Demo.phrases10
    = Py.Raise Py.ZeroDivisionError.
Proof.
  apply (ten_phrases_raise_zero_division Demo.get_seconds
           Demo.timecode_str Demo.frame_logits Demo.exp
           {[0%nat := Demo.scene10]} Demo.phrases10 0%nat Demo.scene10).
  - reflexivity.
  - apply demo_frame_logits_length.
  - vm_compute. reflexivity.
  - vm_compute. lia.
Defined.

Lemma records_come_from_their_scenes_witness :
  ∃ sd,
    Demo.scene_frames !! 0%nat = Some sd ∧
    SceneFrames.first_frame sd
      = Some (SceneCategory.first_frame Demo.record0) ∧
    SceneCategory.start_time Demo.record0
      = Demo.timecode_str (SceneFrames.start_time sd) ∧
    SceneCategory.end_time Demo.record0
      = Demo.timecode_str (SceneFrames.end_time sd) ∧
    SceneCategory.duration Demo.record0 =
      (Demo.get_seconds (SceneFrames.end_time sd)
       - Demo.get_seconds (SceneFrames.start_time sd))%Q ∧
    (SceneCategory.category Demo.record0 = "Action Scene" ∨
     SceneCategory.category Demo.record0 = "Context Scene") ∧
    SceneCategory.best_description Demo.record0 ∈ Demo.phrases ∧
    (0 < Demo.frames_scored Demo.phrases sd)%nat.
Proof.
  apply (records_come_from_their_scenes Demo.get_seconds Demo.timecode_str
           Demo.frame_logits Demo.exp Demo.scene_frames Demo.phrases
           Demo.scene_categories 0%nat Demo.record0).
  - vm_compute. reflexivity.
  - vm_compute. reflexivity.
Defined.

Lemma confidence_in_unit_interval_witness :
  ∃ a c,
    action_confidence (Demo.scene_mean_scores Demo.phrases Demo.scene0)
      = Py.Ok a ∧
    context_confidence Demo.phrases
      (Demo.scene_mean_scores Demo.phrases Demo.scene0) = Py.Ok c ∧
    unit_interval a ∧ unit_interval c ∧
    unit_interval (SceneCategory.confidence Demo.record0).
Proof.
  apply (confidence_in_unit_interval Demo.get_seconds Demo.timecode_str
           Demo.frame_logits Demo.exp demo_exp_pos Demo.phrases Demo.scene0
           Demo.record0).
  vm_compute. reflexivity.
Defined.

Lemma weighted_confidences_sum_to_one_witness :
  ∃ a c,
    action_confidence (Demo.scene_mean_scores Demo.phrases Demo.scene0)
      = Py.Ok a ∧
    context_confidence Demo.phrases
      (Demo.scene_mean_scores Demo.phrases Demo.scene0) = Py.Ok c ∧
    (Py.sum (Demo.scene_mean_scores Demo.phrases Demo.scene0) == 1)%Q ∧
    (10 * a + inject_Z (Z.of_nat (length Demo.phrases - 10)) * c == 1)%Q.
Proof.
  apply (weighted_confidences_sum_to_one Demo.get_seconds Demo.timecode_str
           Demo.frame_logits Demo.exp demo_exp_pos Demo.phrases Demo.scene0
           Demo.record0).
  - apply demo_frame_logits_exact.
  - vm_compute. reflexivity.
Defined.

Lemma extraction_returns_every_scene_witness :
  ∃ scene_frames,
    Demo.extract_frames 7 (Demo.video, 0%nat) Demo.scene_list
      = Some scene_frames ∧
    ∀ j, is_Some (scene_frames !! j) ↔ (j < length Demo.scene_list)%nat.
Proof.
  apply (extraction_returns_every_scene Demo.get_frames Demo.cap_set_pos
           Demo.cap_get_pos Demo.cap_read 7 (Demo.video, 0%nat)
           Demo.scene_list).
  - apply demo_cap_read_progress.
  - unfold Demo.scene_list, Demo.get_frames.
    repeat (constructor; [simpl; lia|]). constructor.
Defined.

Lemma bundles_follow_scene_list_witness :
  Demo.scene_list !! 0%nat
    = Some (SceneFrames.start_time Demo.scene0,
            SceneFrames.end_time Demo.scene0) ∧
  ∃ cap_before n,
    SceneFrames.frames Demo.scene0 =
      omap id (read_results Demo.cap_read n
                 (Demo.cap_set_pos
                    (Demo.get_frames (SceneFrames.start_time Demo.scene0))
                    cap_before)) ∧
    (Demo.get_frames (SceneFrames.end_time Demo.scene0) ≤
     Demo.cap_get_pos
       (cap_after Demo.cap_read n
          (Demo.cap_set_pos
             (Demo.get_frames (SceneFrames.start_time Demo.scene0))
             cap_before)))%nat.
Proof.
  apply (bundles_follow_scene_list Demo.get_frames Demo.cap_set_pos
           Demo.cap_get_pos Demo.cap_read 7 (Demo.video, 0%nat)
           Demo.scene_list Demo.scene_frames 0%nat Demo.scene0).
  - vm_compute. reflexivity.
  - vm_compute. reflexivity.
Defined.

Lemma empty_interval_gives_empty_bundle_witness :
  SceneFrames.frames Demo.still_bundle = [] ∧
  SceneFrames.first_frame Demo.still_bundle = None.
Proof.
  apply (empty_interval_gives_empty_bundle Demo.get_frames Demo.cap_set_pos
           Demo.cap_get_pos Demo.cap_read 0 (Demo.video, 0%nat)
           Demo.still_scene_list {[0%nat := Demo.still_bundle]} 0%nat
           Demo.still_bundle).
  - reflexivity.
  - vm_compute. reflexivity.
  - vm_compute. reflexivity.
  - simpl. unfold Demo.get_frames. lia.
Defined.

Lemma stalled_decoder_blocks_extraction_witness :
  extract_frames Demo.get_frames Demo.cap_set_pos Demo.cap_get_pos
    Demo.stuck_read 1000 (Demo.video, 0%nat) ((0, 3) :: [(3, 5)])%nat = None.
Proof.
  apply (stalled_decoder_blocks_extraction Demo.get_frames Demo.cap_set_pos
           Demo.cap_get_pos Demo.stuck_read 1 1000 (Demo.video, 0%nat)
           0%nat 3%nat [(3, 5)]%nat).
  - intros k Hk. destruct k as [|[|k]]; [vm_compute; lia..|lia].
  - vm_compute. reflexivity.
Defined.

Lemma pipeline_first_frames_witness :
  (∀ i r, Demo.scene_categories !! i = Some r →
     ∃ b rest,
       Demo.scene_frames !! i = Some b ∧
       Demo.scene_list !! i
         = Some (SceneFrames.start_time b, SceneFrames.end_time b) ∧
       SceneFrames.frames b = SceneCategory.first_frame r :: rest) ∧
  (∀ i b, Demo.scene_frames !! i = Some b →
          SceneFrames.frames b = [] → Demo.scene_categories !! i = None).
Proof.
  apply (pipeline_first_frames Demo.get_frames Demo.cap_set_pos
           Demo.cap_get_pos Demo.cap_read Demo.get_seconds Demo.timecode_str
           Demo.frame_logits Demo.exp 7 (Demo.video, 0%nat) Demo.scene_list
           Demo.phrases Demo.scene_frames Demo.scene_categories).
  - vm_compute. reflexivity.
  - vm_compute. reflexivity.
Defined.

Lemma timestamp_needs_two_colons_witness :
  Timestamp.convert_timestamp_to_seconds "01:30" = Py.Raise Py.ValueError.
Proof.
  apply (timestamp_needs_two_colons "01:30"). simpl. lia.
Defined.

Lemma timestamp_of_digit_fields_witness :
  (∃ v,
     Timestamp.convert_timestamp_to_seconds
       (digits_string Demo.hours +:+ ":" +:+ digits_string Demo.minutes
        +:+ ":" +:+ digits_string Demo.seconds) = Py.Ok v ∧
     (v == inject_Z (3600 * digits_value Demo.hours
                     + 60 * digits_value Demo.minutes
                     + digits_value Demo.seconds))%Q) ∧
  (∃ w,
     Timestamp.convert_timestamp_to_seconds
       (digits_string Demo.hours +:+ ":" +:+ digits_string Demo.minutes
        +:+ ":" +:+ digits_string Demo.seconds
        +:+ "." +:+ digits_string Demo.fraction) = Py.Ok w ∧
     (w == inject_Z (3600 * digits_value Demo.hours
                     + 60 * digits_value Demo.minutes
                     + digits_value Demo.seconds)
           + inject_Z (digits_value Demo.fraction)
             / inject_Z (10 ^ Z.of_nat (length Demo.fraction)))%Q).
Proof.
  apply (timestamp_of_digit_fields Demo.hours Demo.minutes Demo.seconds
           Demo.fraction);
    try (repeat (constructor; [lia|]); constructor); try done.
  exists 181%Z, 1%nat. split; [|split].
  - vm_compute. discriminate.
  - lia.
  - vm_compute. reflexivity.
Defined.

Lemma clip_names_do_not_collide_witness :
  3%nat = 3%nat ∧ "Context Scene" = "Context Scene".
Proof.
  apply (clip_names_do_not_collide 3 3 "Context Scene" "Context Scene");
    [by right|by right|reflexivity].
Defined.

Lemma backdrop_fits_the_frame_witness :
  let '((x0, y0), (x1, y1)) := Caption.rectangle 640 480 200 40 in
  (x1 - x0 = 200)%Z ∧ (y1 - y0 = 40 + 20)%Z ∧
  (y0 = Caption.text_y 480 40 - 40 - 10)%Z ∧
  (y1 = Caption.text_y 480 40 + 10)%Z ∧
  ((∀ x y, (x0 ≤ x ≤ x1)%Z → (y0 ≤ y ≤ y1)%Z →
           (0 ≤ x < 640)%Z ∧ (0 ≤ y < 480)%Z) ↔
   (200 < 640 ∧ 40 + 20 < 480)%Z).
Proof.
  apply (backdrop_fits_the_frame 640 480 200 40); lia.
Defined.

